(** * util_sl.py: plate-text normalisation and plate/vehicle matching

    A shallow embedding of [src/util_sl.py].

    Data model.
    - A Python [str] is a [list ascii]: the sequence of its code points.  The
      embedding covers ASCII text (code points below 128); on those,
      [str.upper], the class [[A-Z]] and the class [\d] of [re] are the ones
      written below.  Beyond them [str.upper] and [\d] do more, so the
      general properties of the text functions carry the hypothesis
      [is_ascii] on their texts.
    - The two module-level dicts are association lists in source order;
      [k in d.keys()] is [in_keys], [d[k]] is [getitem], which raises
      [KeyError] on a missing key.
    - Code that can raise returns a [result]: [Ok v] or [Raise e].
    - Confidences and box coordinates are Python floats that the code only
      compares and passes on; they are rationals ([Q]) here. *)

From Stdlib Require Import Ascii String List Bool Arith Lia ZArith QArith.
Import ListNotations.

Local Close Scope Q_scope.
Local Open Scope nat_scope.
Local Open Scope list_scope.
Local Open Scope bool_scope.

(** ** Strings *)

Definition str := list ascii.

(** A literal of the source, as a [str]. *)
Definition lit (s : string) : str := list_ascii_of_string s.

Definition code (c : ascii) : nat := nat_of_ascii c.

Definition is_lower (c : ascii) : bool := (97 <=? code c) && (code c <=? 122).

(** [[A-Z]] of [re]. *)
Definition re_upper (c : ascii) : bool := (65 <=? code c) && (code c <=? 90).

(** [\d] of [re] on a character of code point below 128: the digits 0-9.
    (Beyond, [\d] also accepts the other Unicode decimal digits.) *)
Definition re_digit (c : ascii) : bool := (48 <=? code c) && (code c <=? 57).

(** What [str.upper] does to one character of code point below 128. *)
Definition upper_char (c : ascii) : ascii :=
  if is_lower c then ascii_of_nat (code c - 32) else c.

(** [text.upper()] *)
Definition upper (s : str) : str := map upper_char s.

(** The texts the embedding covers: every code point is below 128.  On
    those, [upper_char] is what [str.upper] does to a character and
    [re_digit] is what [\d] accepts; beyond them [str.upper] and [\d] do
    more, so every general property of the text functions below is stated
    for such texts. *)
Definition is_ascii (s : str) : bool := forallb (fun c => code c <? 128) s.

(** [text.replace(c, "")] for a one-character [c]. *)
Definition remove_char (c : ascii) (s : str) : str :=
  filter (fun x => negb (Ascii.eqb x c)) s.

(** [c in text] for a one-character [c]. *)
Definition contains_char (c : ascii) (s : str) : bool :=
  existsb (Ascii.eqb c) s.

(** [text.split(sep)] for a one-character [sep]: one part more than there are
    separators, never the empty list. *)
Fixpoint split (sep : ascii) (s : str) : list str :=
  match s with
  | [] => [[]]
  | c :: s' =>
      if Ascii.eqb c sep then [] :: split sep s'
      else match split sep s' with
           | p :: ps => (c :: p) :: ps
           | [] => [[c]]
           end
  end.

(** [s[-2:]]: the last two characters, all of [s] when it is shorter. *)
Definition last2 (s : str) : str := skipn (length s - 2) s.

Definition space : ascii := " "%char.
Definition hyphen : ascii := "-"%char.
Definition newline : ascii := "010"%char.

(** [string.ascii_uppercase] and the literal ["0123456789"]. *)
Definition ascii_uppercase : str := lit "ABCDEFGHIJKLMNOPQRSTUVWXYZ".
Definition decimal_digits : str := lit "0123456789".

(** Truth value of a [str]-or-[None] in a condition. *)
Definition truthy (o : option str) : bool :=
  match o with
  | Some (_ :: _) => true
  | _ => false
  end.

(** ** Exceptions *)

Inductive exn : Type :=
| KeyError (key : ascii).

Inductive result (A : Type) : Type :=
| Ok (a : A)
| Raise (e : exn).

Arguments Ok {A} a.
Arguments Raise {A} e.

Definition bind {A B : Type} (r : result A) (k : A -> result B) : result B :=
  match r with
  | Ok a => k a
  | Raise e => Raise e
  end.

Notation "x <- r ;; k" := (bind r (fun x => k))
  (at level 61, r at next level, right associativity).

(** ** The confusion tables *)

Definition dict := list (ascii * ascii).

Definition dict_char_to_int : dict :=
  [("O", "0"); ("I", "1"); ("J", "3"); ("A", "4"); ("G", "6"); ("S", "5")]%char.

Definition dict_int_to_char : dict :=
  [("0", "O"); ("1", "I"); ("3", "J"); ("4", "A"); ("6", "G"); ("5", "S")]%char.

Fixpoint lookup (d : dict) (k : ascii) : option ascii :=
  match d with
  | [] => None
  | (k', v) :: d' => if Ascii.eqb k k' then Some v else lookup d' k
  end.

(** [k in d.keys()] *)
Definition in_keys (k : ascii) (d : dict) : bool :=
  existsb (fun kv => Ascii.eqb k (fst kv)) d.

(** [d[k]] *)
Definition getitem (d : dict) (k : ascii) : result ascii :=
  match lookup d k with
  | Some v => Ok v
  | None => Raise (KeyError k)
  end.

(** ** Regular expressions

    [re.search] tries the pattern at every position from the left, the end of
    the string included, and returns the first match. *)

Fixpoint re_search {A : Type} (m : str -> option A) (s : str) : option A :=
  match m s with
  | Some r => Some r
  | None =>
      match s with
      | [] => None
      | _ :: s' => re_search m s'
      end
  end.

(** [([A-Z]{2})(\d{4})] at the head of [s]: the two groups. *)
Definition match_strict_at (s : str) : option (str * str) :=
  match s with
  | l1 :: l2 :: d1 :: d2 :: d3 :: d4 :: _ =>
      if re_upper l1 && re_upper l2
         && re_digit d1 && re_digit d2 && re_digit d3 && re_digit d4
      then Some ([l1; l2], [d1; d2; d3; d4])
      else None
  | _ => None
  end.

(** The longest prefix of characters satisfying [p], and the rest. *)
Fixpoint span (p : ascii -> bool) (s : str) : str * str :=
  match s with
  | [] => ([], [])
  | c :: s' =>
      if p c then let (a, b) := span p s' in (c :: a, b)
      else ([], s)
  end.

(** [$] without [re.MULTILINE]: the end of the string, or just before a
    newline that ends the string. *)
Definition at_end (s : str) : bool :=
  match s with
  | [] => true
  | [c] => Ascii.eqb c newline
  | _ => false
  end.

(** [([A-Z]+)(\d{4})$] at the head of [s].  [[A-Z]+] is greedy and takes the
    whole run of letters; giving letters back cannot help, since what follows
    a shorter run is a letter, which [\d] refuses. *)
Definition match_loose_at (s : str) : option (str * str) :=
  match span re_upper s with
  | ((_ :: _) as letters, d1 :: d2 :: d3 :: d4 :: rest) =>
      if re_digit d1 && re_digit d2 && re_digit d3 && re_digit d4
         && at_end rest
      then Some (letters, [d1; d2; d3; d4])
      else None
  | _ => None
  end.

(** ** extract_plate_format *)

(** [text.upper().replace(" ", "").replace("-", "")] *)
Definition dense (text : str) : str :=
  remove_char hyphen (remove_char space (upper text)).

Definition extract_plate_format (text : str) : option str :=
  let text := dense text in
  match re_search match_strict_at text with
  | Some (letters, digits) => Some (letters ++ hyphen :: digits)
  | None => None
  end.

(** ** license_complies_format *)

Definition letter_ok (l : ascii) : bool :=
  contains_char l ascii_uppercase || in_keys l dict_int_to_char.

Definition number_ok (n : ascii) : bool :=
  contains_char n decimal_digits || in_keys n dict_char_to_int.

(** The final test of [license_complies_format], on the two parts. *)
Definition valid_parts (letters numbers : str) : bool :=
  (length letters =? 2) && (length numbers =? 4)
  && forallb letter_ok letters && forallb number_ok numbers.

Definition license_complies_format (text : str) : bool :=
  let text := remove_char space (upper text) in
  if contains_char hyphen text then
    match split hyphen text with
    | [p0; p1] =>
        let p0 := if 2 <? length p0 then last2 p0 else p0 in
        valid_parts p0 p1
    | _ => false
    end
  else
    match re_search match_loose_at text with
    | Some (g1, g2) => valid_parts (last2 g1) g2
    | None => false
    end.

(** ** format_license *)

(** One step of the loop over the letter part. *)
Definition format_letter (c : ascii) : result ascii :=
  if in_keys c dict_char_to_int then
    d <- getitem dict_char_to_int c ;; getitem dict_int_to_char d
  else Ok c.

(** One step of the loop over the number part. *)
Definition format_number (c : ascii) : result ascii :=
  if in_keys c dict_int_to_char then getitem dict_char_to_int c
  else if in_keys c dict_char_to_int then getitem dict_char_to_int c
  else Ok c.

(** [for char in s: acc += f(char)], from the left; the first exception
    ends the loop. *)
Fixpoint for_chars (f : ascii -> result ascii) (s : str) (acc : str)
  : result str :=
  match s with
  | [] => Ok acc
  | c :: s' => x <- f c ;; for_chars f s' (acc ++ [x])
  end.

(** Lines 181-199: the two loops and the final f-string. *)
Definition format_parts (letters numbers : str) : result str :=
  formatted_letters <- for_chars format_letter letters [] ;;
  formatted_numbers <- for_chars format_number numbers [] ;;
  Ok (formatted_letters ++ hyphen :: formatted_numbers).

Definition format_license (text : str) : result str :=
  match extract_plate_format text with
  | Some ((_ :: _) as formatted_text) => Ok formatted_text
  | _ =>
      let text := remove_char space (upper text) in
      if contains_char hyphen text then
        match split hyphen text with
        | [p0; p1] =>
            let letters := if 2 <? length p0 then last2 p0 else p0 in
            format_parts letters p1
        | _ => Ok text
        end
      else
        match re_search match_loose_at text with
        | Some (g1, g2) => format_parts (last2 g1) g2
        | None => Ok text
        end
  end.

(** ** read_license_plate *)

(** [x < y] on the floats, as a test. *)
Definition Qlt_bool (x y : Q) : bool :=
  (Qnum x * QDen y <? Qnum y * QDen x)%Z.

(** One OCR detection: the quadrilateral and the pair (text, confidence). *)
Definition detection : Type := list (Q * Q) * (str * Q).

(** What [read_license_plate] returns: the pair (text, score), each of them
    possibly [None]. *)
Definition reading : Type := option str * option Q.

(** Lines 225-246: the loop over the detections, with the two variables
    [best_text] and [best_score] it updates, and what follows the loop. *)
Fixpoint scan (dets : list detection) (best_text : option str) (best_score : Q)
  : result reading :=
  match dets with
  | [] =>
      if truthy best_text then Ok (best_text, Some best_score)
      else Ok (None, None)
  | (_, (text, score)) :: rest =>
      let text := upper text in
      match extract_plate_format text with
      | Some ((_ :: _) as extracted_plate) => Ok (Some extracted_plate, Some score)
      | _ =>
          if license_complies_format text then
            formatted_text <- format_license text ;;
            if Qlt_bool best_score score
            then scan rest (Some formatted_text) score
            else scan rest best_text best_score
          else scan rest best_text best_score
      end
  end.

(** The reduction over a list of hypotheses, from [best_text = None] and
    [best_score = 0]. *)
Definition read_plate (dets : list detection) : result reading :=
  scan dets None 0%Q.

(** What [ocr.ocr] returns: [None], or a list whose first element is [None]
    or the list of detections. *)
Definition ocr_result : Type := option (list (option (list detection))).

(** [read_license_plate], from the value [ocr.ocr] returned. *)
Definition read_license_plate (ocr_out : ocr_result) : result reading :=
  match ocr_out with
  | Some (Some ((_ :: _) as dets) :: _) => read_plate dets
  | _ => Ok (None, None)
  end.

(** ** get_car *)

(** A plate box (x1, y1, x2, y2, score, class_id) and a tracked vehicle
    (xcar1, ycar1, xcar2, ycar2, car_id). *)
Definition plate_box : Type := Q * Q * Q * Q * Q * Q.
Definition vehicle : Type := Q * Q * Q * Q * Q.

(** The condition of line 266. *)
Definition inside (license_plate : plate_box) (v : vehicle) : bool :=
  let '(x1, y1, x2, y2, _, _) := license_plate in
  let '(xcar1, ycar1, xcar2, ycar2, _) := v in
  Qlt_bool xcar1 x1 && Qlt_bool ycar1 y1
  && Qlt_bool x2 xcar2 && Qlt_bool y2 ycar2.

(** The loop of lines 263-269 from index [j] on: [car_indx] when [foundIt]. *)
Fixpoint find_index (license_plate : plate_box) (vs : list vehicle) (j : nat)
  : option nat :=
  match vs with
  | [] => None
  | v :: vs' =>
      if inside license_plate v then Some j
      else find_index license_plate vs' (S j)
  end.

Definition NOT_FOUND : vehicle := (-1, -1, -1, -1, -1)%Q.

Definition get_car (license_plate : plate_box) (vehicle_track_ids : list vehicle)
  : vehicle :=
  match find_index license_plate vehicle_track_ids 0 with
  | Some car_indx => nth car_indx vehicle_track_ids NOT_FOUND
  | None => NOT_FOUND
  end.

(** ** write_csv

    [results] is a dict of dicts: frame number -> car id -> entry; an entry
    is a dict that may have the keys ["car"] and ["license_plate"], whose
    values are dicts that may have the keys read below.  A dict is the list
    of its items in insertion order (its keys are distinct), so that
    [for k in d.keys(): ... d[k] ...] goes through the items.  What
    ["{}".format] prints for a key, a number or a text is a parameter,
    [fmt].  The file is the list of the strings written to it, in order; it
    is assumed that [open] succeeds. *)

Inductive lookup_error : Type :=
| MissingKey (key : string)   (* KeyError(key) *)
| IndexOutOfRange.            (* IndexError *)

Inductive outcome (A : Type) : Type :=
| Done (a : A)
| Fails (e : lookup_error).

Arguments Done {A} a.
Arguments Fails {A} e.

Definition and_then {A B : Type} (r : outcome A) (k : A -> outcome B)
  : outcome B :=
  match r with
  | Done a => k a
  | Fails e => Fails e
  end.

Notation "x <~ r ;; k" := (and_then r (fun x => k))
  (at level 61, r at next level, right associativity).

Definition comma : ascii := ","%char.

(** The first string written (lines 23-33). *)
Definition csv_header : str :=
  lit "frame_nmr,car_id,car_bbox,license_plate_bbox,license_plate_bbox_score,license_number,license_number_score"
  ++ [newline].

Section WriteCsv.

Variable scalar : Type.
Variable fmt : scalar -> str.

(** The value under ["car"]: a dict that may have ["bbox"]. *)
Record car_info : Type := { car_bbox : option (list scalar) }.

(** The value under ["license_plate"]: a dict that may have ["bbox"],
    ["bbox_score"], ["text"] and ["text_score"]. *)
Record plate_info : Type := {
  lp_bbox : option (list scalar);
  lp_bbox_score : option scalar;
  lp_text : option scalar;
  lp_text_score : option scalar
}.

Record entry : Type := {
  car : option car_info;
  license_plate : option plate_info
}.

Definition results_dict : Type := list (scalar * list (scalar * entry)).

(** [d[key]] on a dict with that optional key. *)
Definition field {A : Type} (key : string) (v : option A) : outcome A :=
  match v with
  | Some x => Done x
  | None => Fails (MissingKey key)
  end.

(** [xs[i]] on a list. *)
Definition item (xs : list scalar) (i : nat) : outcome scalar :=
  match nth_error xs i with
  | Some x => Done x
  | None => Fails IndexOutOfRange
  end.

(** ["[{} {} {} {}]".format(d["bbox"][0], d["bbox"][1], d["bbox"][2],
    d["bbox"][3])] *)
Definition bbox_cell (bbox : option (list scalar)) : outcome str :=
  b <~ field "bbox" bbox ;;
  x0 <~ item b 0 ;;
  x1 <~ item b 1 ;;
  x2 <~ item b 2 ;;
  x3 <~ item b 3 ;;
  Done (lit "[" ++ fmt x0 ++ space :: fmt x1 ++ space :: fmt x2
          ++ space :: fmt x3 ++ lit "]").

(** The condition of lines 38-42. *)
Definition has_text (e : entry) : bool :=
  match car e, license_plate e with
  | Some _, Some lp =>
      match lp_text lp with
      | Some _ => true
      | None => false
      end
  | _, _ => false
  end.

(** The string of lines 44-62, its arguments evaluated from left to right. *)
Definition row_text (frame_nmr car_id : scalar) (e : entry) : outcome str :=
  c <~ field "car" (car e) ;;
  car_cell <~ bbox_cell (car_bbox c) ;;
  lp <~ field "license_plate" (license_plate e) ;;
  plate_cell <~ bbox_cell (lp_bbox lp) ;;
  bbox_score <~ field "bbox_score" (lp_bbox_score lp) ;;
  text <~ field "text" (lp_text lp) ;;
  text_score <~ field "text_score" (lp_text_score lp) ;;
  Done (fmt frame_nmr ++ comma :: fmt car_id ++ comma :: car_cell
          ++ comma :: plate_cell ++ comma :: fmt bbox_score
          ++ comma :: fmt text ++ comma :: fmt text_score ++ [newline]).

(** What the call has produced: the strings written to the file and the
    entries printed. *)
Record output : Type := {
  file : list str;
  stdout : list entry
}.

(** The inner loop (lines 36-63) for one frame; [Some] error when a lookup
    raised, with what had been produced until then. *)
Fixpoint write_cars (frame_nmr : scalar) (cars : list (scalar * entry))
         (out : output) : output * option lookup_error :=
  match cars with
  | [] => (out, None)
  | (car_id, e) :: rest =>
      let out := {| file := file out; stdout := stdout out ++ [e] |} in
      if has_text e then
        match row_text frame_nmr car_id e with
        | Done line =>
            write_cars frame_nmr rest
                       {| file := file out ++ [line]; stdout := stdout out |}
        | Fails err => (out, Some err)
        end
      else write_cars frame_nmr rest out
  end.

(** The outer loop (line 35). *)
Fixpoint write_frames (results : results_dict) (out : output)
  : output * option lookup_error :=
  match results with
  | [] => (out, None)
  | (frame_nmr, cars) :: rest =>
      match write_cars frame_nmr cars out with
      | (out', None) => write_frames rest out'
      | (out', Some err) => (out', Some err)
      end
  end.

Definition write_csv (results : results_dict) : output * option lookup_error :=
  write_frames results {| file := [csv_header]; stdout := [] |}.

(** The entries of [results] in the order of the two loops, each with its
    frame number and car id. *)
Definition entries (results : results_dict) : list (scalar * scalar * entry) :=
  flat_map (fun fc => map (fun ce => (fst fc, fst ce, snd ce)) (snd fc)) results.

(** An entry whose row can be formatted: both boxes have four coordinates
    at least and the two scores are there. *)
Definition formattable (e : entry) : bool :=
  match car e, license_plate e with
  | Some c, Some lp =>
      match car_bbox c, lp_bbox lp, lp_bbox_score lp, lp_text lp,
            lp_text_score lp with
      | Some cb, Some pb, Some _, Some _, Some _ =>
          (4 <=? length cb) && (4 <=? length pb)
      | _, _, _, _, _ => false
      end
  | _, _ => false
  end.

(** The rows of a list of entries: the row of each entry that passes the
    condition of lines 38-42. *)
Definition rows_of (es : list (scalar * scalar * entry)) : list str :=
  flat_map (fun fce =>
              let '(f, c, e) := fce in
              if has_text e then
                match row_text f c e with
                | Done line => [line]
                | Fails _ => []
                end
              else []) es.

(** The two loops as one loop over [entries]. *)
Fixpoint write_entries (es : list (scalar * scalar * entry)) (out : output)
  : output * option lookup_error :=
  match es with
  | [] => (out, None)
  | (frame_nmr, car_id, e) :: rest =>
      let out := {| file := file out; stdout := stdout out ++ [e] |} in
      if has_text e then
        match row_text frame_nmr car_id e with
        | Done line =>
            write_entries rest
                          {| file := file out ++ [line]; stdout := stdout out |}
        | Fails err => (out, Some err)
        end
      else write_entries rest out
  end.

End WriteCsv.

Arguments car_bbox {scalar} _.
Arguments lp_bbox {scalar} _.
Arguments lp_bbox_score {scalar} _.
Arguments lp_text {scalar} _.
Arguments lp_text_score {scalar} _.
Arguments car {scalar} _.
Arguments license_plate {scalar} _.
Arguments file {scalar} _.
Arguments stdout {scalar} _.
Arguments has_text {scalar} _.
Arguments formattable {scalar} _.
Arguments entries {scalar} _.
Arguments item {scalar} _ _.

(** ** Notions the properties are stated with *)

(** A hypothesis with literal text (the quadrilateral plays no part). *)
Definition hyp (t : string) (score : Q) : detection := ([], (lit t, score)).

(** Strict containment of a plate box in a vehicle box, as a proposition on
    the coordinates. *)
Definition strictly_contains (v : vehicle) (p : plate_box) : Prop :=
  let '(px1, py1, px2, py2, _, _) := p in
  let '(vx1, vy1, vx2, vy2, _) := v in
  (vx1 < px1 /\ vy1 < py1 /\ px2 < vx2 /\ py2 < vy2)%Q.

(** A plate-shaped substring of [s] at offset [k]: two characters of [[A-Z]]
    followed by four of [\d]. *)
Definition plate_at (s : str) (k : nat) (letters digits : str) : Prop :=
  exists pre post,
    s = pre ++ letters ++ digits ++ post
    /\ length pre = k
    /\ length letters = 2 /\ forallb re_upper letters = true
    /\ length digits = 4 /\ forallb re_digit digits = true.

(** [license_complies_format] and the fallback of [format_license] split the
    text in the same way; [fallback_parts] names the two parts they get. *)
Definition fallback_parts (text : str) : option (str * str) :=
  let text := remove_char space (upper text) in
  if contains_char hyphen text then
    match split hyphen text with
    | [p0; p1] => Some (if 2 <? length p0 then last2 p0 else p0, p1)
    | _ => None
    end
  else
    match re_search match_loose_at text with
    | Some (g1, g2) => Some (last2 g1, g2)
    | None => None
    end.

(** The text of a hypothesis as the loop body sees it (line 229), and its
    confidence. *)
Definition text_of (d : detection) : str := upper (fst (snd d)).
Definition score_of (d : detection) : Q := snd (snd d).

(** Hypotheses whose texts are all ASCII. *)
Definition ascii_texts (dets : list detection) : bool :=
  forallb (fun d => is_ascii (fst (snd d))) dets.

(** A hypothesis the loop body would hand to [format_license]. *)
Definition complying (d : detection) : bool :=
  license_complies_format (text_of d).

(** Two letter-position characters that [license_complies_format] accepts, a
    hyphen, four digits. *)
Definition plate_like (t : str) : Prop :=
  exists a b d1 d2 d3 d4,
    t = [a; b; hyphen; d1; d2; d3; d4]
    /\ letter_ok a && letter_ok b = true
    /\ re_digit d1 && re_digit d2 && re_digit d3 && re_digit d4 = true.

(** The text [t] that the loop body makes of the hypothesis [h]: by the
    primary extraction, or else by [format_license] on a complying text. *)
Definition yields (h : detection) (t : str) : Prop :=
  extract_plate_format (text_of h) = Some t
  \/ (extract_plate_format (text_of h) = None
      /\ complying h = true
      /\ format_license (text_of h) = Ok t).

(** The digit the number loop writes for a character that is no key of
    char->letter: its value in char->digit, or the character itself. *)
Definition to_digit (c : ascii) : ascii :=
  match lookup dict_char_to_int c with
  | Some d => d
  | None => c
  end.

(** A rendering and a few entries to try [write_csv] on: numbers printed
    in unary. *)
Definition tally (n : nat) : str := repeat "|"%char n.

Definition full_entry : entry nat :=
  {| car := Some {| car_bbox := Some [1; 2; 3; 4] |};
     license_plate :=
       Some {| lp_bbox := Some [1; 1; 2; 2]; lp_bbox_score := Some 9;
               lp_text := Some 7; lp_text_score := Some 8 |} |}.

Definition no_text_entry : entry nat :=
  {| car := Some {| car_bbox := None |};
     license_plate :=
       Some {| lp_bbox := None; lp_bbox_score := None;
               lp_text := None; lp_text_score := None |} |}.

Definition short_box_entry : entry nat :=
  {| car := Some {| car_bbox := Some [1; 2; 3] |};
     license_plate :=
       Some {| lp_bbox := Some [1; 1; 2; 2]; lp_bbox_score := Some 9;
               lp_text := Some 7; lp_text_score := Some 8 |} |}.

Ltac by_key c :=
  repeat match goal with
         | |- context [Ascii.eqb c ?k] =>
             destruct (Ascii.eqb_spec c k); [subst c | ]
         end.

(** * Properties *)

(** ** The confusion tables *)

Lemma in_keys_lookup (d : dict) (k : ascii) :
  in_keys k d = true <-> exists v, lookup d k = Some v.
Proof.
  induction d as [| [k' v'] d IH]; simpl.
  - split; [discriminate | intros [v Hv]; discriminate].
  - destruct (Ascii.eqb k k'); simpl.
    + split; [eauto | reflexivity].
    + exact IH.
Qed.

(** C9: the two tables are consistent with each other on their six pairs.
    When [c] is a key of char->digit with value [d], then [d] is a key of
    char->letter and char->letter sends it back to [c]; and when [d] is a key
    of char->letter with value [c], then [c] is a key of char->digit, which
    sends it to [d]. *)
Theorem confusion_tables_consistent (c d : ascii) :
  lookup dict_char_to_int c = Some d \/ lookup dict_int_to_char d = Some c ->
  in_keys c dict_char_to_int = true /\ lookup dict_char_to_int c = Some d
  /\ in_keys d dict_int_to_char = true /\ lookup dict_int_to_char d = Some c.
Proof.
  unfold dict_char_to_int, dict_int_to_char. simpl. intros [H | H].
  - revert H. by_key c; intros H; inversion H; subst; repeat split.
  - revert H. by_key d; intros H; inversion H; subst; repeat split.
Qed.

Lemma confusion_tables_consistent_witness :
  in_keys "S"%char dict_char_to_int = true
  /\ lookup dict_char_to_int "S"%char = Some "5"%char
  /\ in_keys "5"%char dict_int_to_char = true
  /\ lookup dict_int_to_char "5"%char = Some "S"%char.
Proof.
  apply (confusion_tables_consistent "S"%char "5"%char).
  left. reflexivity.
Defined.

(** The keys of the two tables, in source order. *)
Lemma confusion_tables_keys :
  map fst dict_char_to_int = lit "OIJAGS"
  /\ map fst dict_int_to_char = lit "013465"
  /\ map snd dict_char_to_int = map fst dict_int_to_char
  /\ map snd dict_int_to_char = map fst dict_char_to_int.
Proof. repeat split. Qed.

(** ** get_car *)

Lemma Qlt_bool_iff (x y : Q) : Qlt_bool x y = true <-> (x < y)%Q.
Proof. unfold Qlt_bool, Qlt. apply Z.ltb_lt. Qed.

Lemma inside_iff (p : plate_box) (v : vehicle) :
  inside p v = true <-> strictly_contains v p.
Proof.
  destruct p as [[[[[x1 y1] x2] y2] sc] cl], v as [[[[a b] c] d] i].
  unfold inside, strictly_contains.
  rewrite !andb_true_iff, !Qlt_bool_iff. tauto.
Qed.

Lemma find_index_spec (p : plate_box) (vs : list vehicle) :
  forall j,
    match find_index p vs j with
    | Some k =>
        exists pre v post,
          vs = pre ++ v :: post /\ k = j + length pre
          /\ inside p v = true
          /\ Forall (fun u => inside p u = false) pre
    | None => Forall (fun u => inside p u = false) vs
    end.
Proof.
  induction vs as [| v vs IH]; intros j; simpl.
  - constructor.
  - destruct (inside p v) eqn:Hv.
    + exists [], v, vs. simpl. repeat split; auto.
    + specialize (IH (S j)). destruct (find_index p vs (S j)) as [k |].
      * destruct IH as (pre & w & post & -> & -> & Hw & Hpre).
        exists (v :: pre), w, post. simpl. repeat split; auto; lia.
      * constructor; assumption.
Qed.

(** C6: [get_car] returns the first vehicle box, in list order, that
    strictly contains the plate box on all four sides, and the sentinel
    (-1,-1,-1,-1,-1) when no box does; a plate box that touches an edge of
    the vehicle box is not contained. *)
Theorem get_car_first_strict_container (p : plate_box) (vs : list vehicle) :
  ((exists pre v post,
      vs = pre ++ v :: post
      /\ strictly_contains v p
      /\ Forall (fun u => ~ strictly_contains u p) pre
      /\ get_car p vs = v)
   \/
   (Forall (fun u => ~ strictly_contains u p) vs
    /\ get_car p vs = NOT_FOUND))
  /\ get_car (0, 0, 10, 10, 1, 0)%Q [(0, 0, 20, 20, 1)%Q] = NOT_FOUND.
Proof.
  split; [| reflexivity].
  unfold get_car. pose proof (find_index_spec p vs 0) as H.
  destruct (find_index p vs 0) as [k |].
  - left. destruct H as (pre & v & post & -> & -> & Hv & Hpre).
    exists pre, v, post. repeat split.
    + apply inside_iff, Hv.
    + eapply Forall_impl; [| exact Hpre]. simpl. intros u Hu Hc.
      apply inside_iff in Hc. congruence.
    + simpl. rewrite app_nth2, Nat.sub_diag by lia. reflexivity.
  - right. split; [| reflexivity].
    eapply Forall_impl; [| exact H]. simpl. intros u Hu Hc.
    apply inside_iff in Hc. congruence.
Qed.

(** ** Primary extraction *)

Section Search.
Context {A : Type} (m : str -> option A).

Lemma re_search_some (s : str) (r : A) :
  re_search m s = Some r ->
  exists k, k <= length s /\ m (skipn k s) = Some r
            /\ forall j, j < k -> m (skipn j s) = None.
Proof.
  induction s as [| c s IH]; simpl.
  - destruct (m []) eqn:E; [| discriminate]. intros [= ->].
    exists 0. simpl. repeat split; auto; intros; lia.
  - destruct (m (c :: s)) eqn:E.
    + intros [= ->]. exists 0. simpl. repeat split; auto; intros; lia.
    + intros H. destruct (IH H) as (k & Hk & Hm & Hmin).
      exists (S k). simpl. repeat split; auto; try lia.
      intros [| j] Hj; simpl; [assumption | apply Hmin; lia].
Qed.

Lemma re_search_none (s : str) :
  re_search m s = None -> forall k, m (skipn k s) = None.
Proof.
  induction s as [| c s IH]; simpl.
  - destruct (m []) eqn:E; [discriminate |]. intros _ k.
    rewrite skipn_nil. assumption.
  - destruct (m (c :: s)) eqn:E; [discriminate |]. intros H [| k]; simpl.
    + assumption.
    + apply IH, H.
Qed.
End Search.

Lemma match_strict_at_iff (s letters digits : str) :
  match_strict_at s = Some (letters, digits) <->
  exists post,
    s = letters ++ digits ++ post
    /\ length letters = 2 /\ forallb re_upper letters = true
    /\ length digits = 4 /\ forallb re_digit digits = true.
Proof.
  split.
  - destruct s as [| l1 [| l2 [| d1 [| d2 [| d3 [| d4 post]]]]]];
      simpl; try discriminate.
    destruct (re_upper l1 && re_upper l2 && re_digit d1 && re_digit d2
              && re_digit d3 && re_digit d4) eqn:E; [| discriminate].
    intros [= <- <-]. exists post. simpl.
    rewrite !andb_true_iff in E. rewrite !andb_true_iff. tauto.
  - intros (post & -> & Hl & Ul & Hd & Ud).
    destruct letters as [| l1 [| l2 [| ? ?]]]; try discriminate.
    destruct digits as [| d1 [| d2 [| d3 [| d4 [| ? ?]]]]]; try discriminate.
    simpl in *. rewrite !andb_true_iff in Ul. rewrite !andb_true_iff in Ud.
    destruct Ul as (U1 & U2 & _), Ud as (D1 & D2 & D3 & D4 & _).
    rewrite U1, U2, D1, D2, D3, D4. reflexivity.
Qed.

Lemma plate_at_iff (s : str) (k : nat) (letters digits : str) :
  plate_at s k letters digits <->
  k <= length s /\ match_strict_at (skipn k s) = Some (letters, digits).
Proof.
  unfold plate_at. rewrite match_strict_at_iff. split.
  - intros (pre & post & -> & <- & H). split.
    + rewrite length_app. lia.
    + exists post. rewrite skipn_app, skipn_all, Nat.sub_diag. simpl. tauto.
  - intros (Hk & post & E & H).
    exists (firstn k s), post. rewrite <- E, firstn_skipn.
    rewrite firstn_length_le by assumption. tauto.
Qed.

Lemma extract_plate_format_some (text letters digits : str) :
  re_search match_strict_at (dense text) = Some (letters, digits) ->
  extract_plate_format text = Some (letters ++ hyphen :: digits).
Proof. unfold extract_plate_format. intros ->. reflexivity. Qed.

Lemma extract_plate_format_none (text : str) :
  re_search match_strict_at (dense text) = None ->
  extract_plate_format text = None.
Proof. unfold extract_plate_format. intros ->. reflexivity. Qed.

(** Whatever [extract_plate_format] returns is plate-shaped, so never the
    empty string. *)
Lemma extract_plate_format_shape (text t : str) :
  extract_plate_format text = Some t ->
  exists l1 l2 d1 d2 d3 d4,
    t = [l1; l2; hyphen; d1; d2; d3; d4]
    /\ re_upper l1 && re_upper l2 = true
    /\ re_digit d1 && re_digit d2 && re_digit d3 && re_digit d4 = true.
Proof.
  unfold extract_plate_format.
  destruct (re_search match_strict_at (dense text)) as [[ls ds] |] eqn:E;
    [| discriminate].
  intros [= <-]. apply re_search_some in E. destruct E as (k & _ & E & _).
  apply match_strict_at_iff in E. destruct E as (post & _ & Hl & Ul & Hd & Ud).
  destruct ls as [| l1 [| l2 [| ? ?]]]; try discriminate.
  destruct ds as [| d1 [| d2 [| d3 [| d4 [| ? ?]]]]]; try discriminate.
  exists l1, l2, d1, d2, d3, d4. simpl in *.
  rewrite !andb_true_r in Ul, Ud. rewrite <- !andb_assoc. auto.
Qed.

(** C3: for an ASCII text, when the upper-cased text without spaces and
    hyphens contains two letters of [[A-Z]] followed by four digits,
    [format_license] returns the letters, a hyphen and the digits of the
    first such place, as they stand in the text: no table is applied. *)
Theorem format_license_primary (text : str) :
  is_ascii text = true ->
  (exists k letters digits, plate_at (dense text) k letters digits) ->
  exists k letters digits,
    plate_at (dense text) k letters digits
    /\ (forall j ls ds, j < k -> ~ plate_at (dense text) j ls ds)
    /\ format_license text = Ok (letters ++ hyphen :: digits).
Proof.
  intros _ (k0 & ls0 & ds0 & H0). apply plate_at_iff in H0.
  destruct H0 as [_ H0].
  destruct (re_search match_strict_at (dense text)) as [[ls ds] |] eqn:E.
  - destruct (re_search_some _ _ _ E) as (k & Hk & Hm & Hmin).
    exists k, ls, ds. split; [| split].
    + apply plate_at_iff. auto.
    + intros j ls' ds' Hj Hp. apply plate_at_iff in Hp.
      destruct Hp as [_ Hp]. rewrite (Hmin j Hj) in Hp. discriminate.
    + unfold format_license. rewrite (extract_plate_format_some _ _ _ E).
      apply match_strict_at_iff in Hm. destruct Hm as (_ & _ & Hl & _).
      destruct ls as [| l1 ls]; [discriminate | reflexivity].
  - rewrite (re_search_none _ _ E k0) in H0. discriminate.
Qed.

Lemma format_license_primary_witness :
  exists k letters digits,
    plate_at (dense (lit "nw kf-7617 x")) k letters digits
    /\ (forall j ls ds, j < k -> ~ plate_at (dense (lit "nw kf-7617 x")) j ls ds)
    /\ format_license (lit "nw kf-7617 x") = Ok (letters ++ hyphen :: digits).
Proof.
  apply format_license_primary; [reflexivity |].
  exists 2, (lit "KF"), (lit "7617"), (lit "NW"), (lit "X").
  repeat split; reflexivity.
Defined.

(** Letters of [[A-Z]] and digits are left alone by [upper], and are neither
    a space nor a hyphen. *)
Lemma plain_char (c : ascii) :
  re_upper c || re_digit c = true ->
  upper_char c = c
  /\ Ascii.eqb c space = false /\ Ascii.eqb c hyphen = false.
Proof.
  destruct c as [[] [] [] [] [] [] [] []]; vm_compute;
    intros H; try discriminate H; auto.
Qed.

(** A text that is two letters of [[A-Z]] and four digits comes back with a
    hyphen after the letters. *)
Corollary format_license_plate_shaped (l1 l2 d1 d2 d3 d4 : ascii) :
  re_upper l1 && re_upper l2 = true ->
  re_digit d1 && re_digit d2 && re_digit d3 && re_digit d4 = true ->
  format_license [l1; l2; d1; d2; d3; d4]
  = Ok [l1; l2; hyphen; d1; d2; d3; d4].
Proof.
  intros Hl Hd. rewrite !andb_true_iff in Hl. rewrite !andb_true_iff in Hd.
  destruct Hl as [U1 U2], Hd as [[[D1 D2] D3] D4].
  assert (E : dense [l1; l2; d1; d2; d3; d4] = [l1; l2; d1; d2; d3; d4]).
  { unfold dense, upper, remove_char. simpl.
    destruct (plain_char l1) as (-> & S1 & H1); [rewrite U1; reflexivity |].
    destruct (plain_char l2) as (-> & S2 & H2); [rewrite U2; reflexivity |].
    destruct (plain_char d1) as (-> & S3 & H3);
      [rewrite D1; apply orb_true_r |].
    destruct (plain_char d2) as (-> & S4 & H4);
      [rewrite D2; apply orb_true_r |].
    destruct (plain_char d3) as (-> & S5 & H5);
      [rewrite D3; apply orb_true_r |].
    destruct (plain_char d4) as (-> & S6 & H6);
      [rewrite D4; apply orb_true_r |].
    rewrite S1, S2, S3, S4, S5, S6. simpl.
    rewrite H1, H2, H3, H4, H5, H6. reflexivity. }
  unfold format_license, extract_plate_format. rewrite E. simpl.
  rewrite U1, U2, D1, D2, D3, D4. reflexivity.
Qed.

(** ** The number loop of [format_license] *)

(** What one step of the number loop does: a key of char->digit is replaced
    by its digit; a key of char->letter (one of the digits 0, 1, 3, 4, 5, 6)
    is looked up in char->digit, where it is no key, so the step raises
    [KeyError]; any other character is kept. *)
Lemma format_number_cases (c : ascii) :
  (forall d, lookup dict_char_to_int c = Some d -> format_number c = Ok d)
  /\ (in_keys c dict_int_to_char = true ->
      format_number c = Raise (KeyError c))
  /\ (in_keys c dict_char_to_int = false ->
      in_keys c dict_int_to_char = false ->
      format_number c = Ok c).
Proof.
  unfold format_number, getitem, in_keys, dict_char_to_int, dict_int_to_char.
  simpl. repeat split.
  - intros d. by_key c; simpl; intros H; inversion H; reflexivity.
  - by_key c; simpl; intros H; try reflexivity; discriminate H.
  - by_key c; simpl; intros H1 H2; try discriminate; reflexivity.
Qed.

(** One step of the letter loop never changes the character: a key of
    char->digit goes to its digit and back. *)
Lemma format_letter_id (c : ascii) : format_letter c = Ok c.
Proof.
  unfold format_letter, getitem, in_keys, dict_char_to_int, dict_int_to_char.
  simpl. by_key c; reflexivity.
Qed.

(** C1: on ["KF-O617"] the number loop replaces [O] by [0] and then looks up
    the digit [6] in the char->digit table, where it is no key:
    [format_license] raises [KeyError] and does not return ["KF-0617"]. *)
Theorem format_license_KF_O617_raises :
  extract_plate_format (lit "KF-O617") = None
  /\ format_number "O"%char = Ok "0"%char
  /\ format_number "6"%char = Raise (KeyError "6"%char)
  /\ format_license (lit "KF-O617") = Raise (KeyError "6"%char).
Proof. repeat split. Qed.

(** ** The fallback parse *)

Lemma license_complies_format_parts (text : str) :
  license_complies_format text
  = match fallback_parts text with
    | Some (letters, numbers) => valid_parts letters numbers
    | None => false
    end.
Proof.
  unfold license_complies_format, fallback_parts.
  destruct (contains_char hyphen (remove_char space (upper text))).
  - destruct (split hyphen (remove_char space (upper text)))
      as [| p0 [| p1 [| ? ?]]]; reflexivity.
  - destruct (re_search match_loose_at (remove_char space (upper text)))
      as [[g1 g2] |]; reflexivity.
Qed.

Lemma format_license_fallback (text : str) :
  extract_plate_format text = None ->
  format_license text
  = match fallback_parts text with
    | Some (letters, numbers) => format_parts letters numbers
    | None => Ok (remove_char space (upper text))
    end.
Proof.
  unfold format_license, fallback_parts. intros ->.
  destruct (contains_char hyphen (remove_char space (upper text))).
  - destruct (split hyphen (remove_char space (upper text)))
      as [| p0 [| p1 [| ? ?]]]; reflexivity.
  - destruct (re_search match_loose_at (remove_char space (upper text)))
      as [[g1 g2] |]; reflexivity.
Qed.

(** Outside the defect of C7: when both parses fail, what comes back is the
    upper-cased text without its spaces. *)
Lemma format_license_passthrough (text : str) :
  extract_plate_format text = None ->
  fallback_parts text = None ->
  format_license text = Ok (remove_char space (upper text)).
Proof.
  intros He Hf. rewrite (format_license_fallback _ He), Hf. reflexivity.
Qed.

(** The passthrough is the text itself when there is nothing to upper-case
    and no space to delete. *)
Lemma format_license_passthrough_fixed (text : str) :
  extract_plate_format text = None ->
  fallback_parts text = None ->
  forallb (fun c => negb (is_lower c) && negb (Ascii.eqb c space)) text = true ->
  format_license text = Ok text.
Proof.
  intros He Hf Hc. rewrite (format_license_passthrough _ He Hf). f_equal.
  clear He Hf. induction text as [| c s IH]; [reflexivity |].
  simpl in Hc. rewrite !andb_true_iff, !negb_true_iff in Hc.
  destruct Hc as [[Hl Hs] Hc]. unfold remove_char, upper in *. simpl.
  assert (Hu : upper_char c = c) by (unfold upper_char; rewrite Hl; reflexivity).
  rewrite Hu, Hs. simpl. f_equal. apply IH, Hc.
Qed.

(** C7: when both parses fail, [format_license] returns the upper-cased text
    without its spaces, which is not the text it was given. *)
Theorem format_license_passthrough_not_original :
  extract_plate_format (lit "ab cd") = None
  /\ format_license (lit "ab cd") = Ok (lit "ABCD")
  /\ lit "ABCD" <> lit "ab cd".
Proof. repeat split. discriminate. Qed.

(** ** The two loops *)

Lemma for_chars_format_letter (s acc : str) :
  for_chars format_letter s acc = Ok (acc ++ s).
Proof.
  revert acc. induction s as [| c s IH]; intros acc; simpl.
  - rewrite app_nil_r. reflexivity.
  - rewrite format_letter_id. simpl. rewrite IH, <- app_assoc. reflexivity.
Qed.

(** A step of the number loop that does not raise, on a character that
    [license_complies_format] accepts at a number position, gives a digit. *)
Lemma format_number_digit (c x : ascii) :
  number_ok c = true -> format_number c = Ok x -> re_digit x = true.
Proof.
  destruct c as [[] [] [] [] [] [] [] []]; vm_compute;
    intros H E; try discriminate H; try discriminate E;
    inversion E; reflexivity.
Qed.

Lemma for_chars_format_number (s acc r : str) :
  forallb number_ok s = true ->
  for_chars format_number s acc = Ok r ->
  exists ns, r = acc ++ ns /\ length ns = length s
             /\ forallb re_digit ns = true.
Proof.
  revert acc. induction s as [| c s IH]; intros acc Hs; simpl.
  - intros [= <-]. exists []. rewrite app_nil_r. auto.
  - simpl in Hs. apply andb_true_iff in Hs. destruct Hs as [Hc Hs].
    destruct (format_number c) as [x | e] eqn:E; simpl; [| discriminate].
    intros H. destruct (IH _ Hs H) as (ns & -> & Hlen & Hd).
    exists (x :: ns). rewrite <- app_assoc. simpl.
    rewrite (format_number_digit _ _ Hc E), Hlen, Hd. auto.
Qed.

(** The shape of what the fallback returns on parts that
    [license_complies_format] accepts: the two characters of the letter part
    as they are, a hyphen, and four digits. *)
Lemma format_parts_shape (letters numbers t : str) :
  valid_parts letters numbers = true ->
  format_parts letters numbers = Ok t ->
  exists a b d1 d2 d3 d4,
    letters = [a; b]
    /\ t = [a; b; hyphen; d1; d2; d3; d4]
    /\ letter_ok a && letter_ok b = true
    /\ re_digit d1 && re_digit d2 && re_digit d3 && re_digit d4 = true.
Proof.
  unfold valid_parts, format_parts. rewrite !andb_true_iff.
  intros [[[Hl Hn] Ul] Un]. apply Nat.eqb_eq in Hl, Hn.
  rewrite for_chars_format_letter. simpl.
  destruct (for_chars format_number numbers []) as [ns | e] eqn:E;
    simpl; [| discriminate].
  intros [= <-].
  destruct (for_chars_format_number _ _ _ Un E) as (ns' & -> & Hlen & Hd).
  simpl in *. rewrite Hn in Hlen.
  destruct letters as [| a [| b [| ? ?]]]; try discriminate.
  destruct ns' as [| d1 [| d2 [| d3 [| d4 [| ? ?]]]]]; try discriminate.
  exists a, b, d1, d2, d3, d4. simpl in *.
  rewrite !andb_true_r in Ul, Hd. rewrite <- !andb_assoc. auto.
Qed.

(** ** The scan of read_license_plate *)

Lemma scan_primary (d : detection) (rest : list detection)
      (bt : option str) (bs : Q) (p : str) :
  extract_plate_format (text_of d) = Some p ->
  scan (d :: rest) bt bs = Ok (Some p, Some (score_of d)).
Proof.
  destruct d as [q [text score]]. unfold text_of, score_of. simpl.
  intros E. rewrite E.
  destruct (extract_plate_format_shape _ _ E) as (? & ? & ? & ? & ? & ? & -> & _).
  reflexivity.
Qed.

Lemma scan_skip (d : detection) (rest : list detection)
      (bt : option str) (bs : Q) :
  extract_plate_format (text_of d) = None ->
  complying d = false ->
  scan (d :: rest) bt bs = scan rest bt bs.
Proof.
  destruct d as [q [text score]]. unfold complying, text_of. simpl.
  intros -> ->. reflexivity.
Qed.

Lemma scan_candidate (d : detection) (rest : list detection)
      (bt : option str) (bs : Q) :
  extract_plate_format (text_of d) = None ->
  complying d = true ->
  scan (d :: rest) bt bs
  = (t <- format_license (text_of d) ;;
     if Qlt_bool bs (score_of d) then scan rest (Some t) (score_of d)
     else scan rest bt bs).
Proof.
  destruct d as [q [text score]]. unfold complying, text_of, score_of. simpl.
  intros -> ->. reflexivity.
Qed.

(** What [format_license] makes of a complying text that misses the primary
    pattern, when it does not raise. *)
Lemma format_license_complying (text t : str) :
  extract_plate_format text = None ->
  license_complies_format text = true ->
  format_license text = Ok t ->
  plate_like t.
Proof.
  intros He Hc Hf.
  rewrite license_complies_format_parts in Hc.
  rewrite (format_license_fallback _ He) in Hf.
  destruct (fallback_parts text) as [[letters numbers] |]; [| discriminate].
  destruct (format_parts_shape _ _ _ Hc Hf)
    as (a & b & d1 & d2 & d3 & d4 & _ & -> & H).
  exists a, b, d1, d2, d3, d4. auto.
Qed.

Lemma letter_ok_upper (c : ascii) : re_upper c = true -> letter_ok c = true.
Proof.
  destruct c as [[] [] [] [] [] [] [] []]; vm_compute;
    intros H; try discriminate H; reflexivity.
Qed.

Lemma extract_plate_format_plate_like (text t : str) :
  extract_plate_format text = Some t -> plate_like t.
Proof.
  intros E.
  destruct (extract_plate_format_shape _ _ E)
    as (l1 & l2 & d1 & d2 & d3 & d4 & -> & Hl & Hd).
  exists l1, l2, d1, d2, d3, d4. repeat split; auto.
  apply andb_true_iff in Hl. destruct Hl as [H1 H2].
  rewrite (letter_ok_upper _ H1), (letter_ok_upper _ H2). reflexivity.
Qed.

(** Outside the defect of C8: every text the scan returns has two
    letter-position characters, a hyphen and four digits; a letter position
    holds a letter of [[A-Z]] or one of the digits 0, 1, 3, 4, 5, 6. *)
Lemma scan_plate_like (dets : list detection) :
  forall (bt : option str) (bs : Q) (t : str) (sc : option Q),
    (forall t0, bt = Some t0 -> plate_like t0) ->
    scan dets bt bs = Ok (Some t, sc) ->
    plate_like t.
Proof.
  induction dets as [| d rest IH]; intros bt bs t sc Hbt.
  - simpl. destruct (truthy bt); intros [= E _]. auto.
  - destruct (extract_plate_format (text_of d)) as [p |] eqn:He.
    + rewrite (scan_primary _ _ _ _ _ He). intros [= <- _].
      eapply extract_plate_format_plate_like, He.
    + destruct (complying d) eqn:Hc.
      * rewrite (scan_candidate _ _ _ _ He Hc).
        destruct (format_license (text_of d)) as [t0 | e] eqn:Hf;
          simpl; [| discriminate].
        destruct (Qlt_bool bs (score_of d)).
        -- apply IH. intros t1 [= <-].
           eapply format_license_complying; eauto.
        -- apply IH, Hbt.
      * rewrite (scan_skip _ _ _ _ He Hc). apply IH, Hbt.
Qed.

(** X18: on hypotheses with ASCII texts, every text the reduction returns
    has two letter-position
    characters, a hyphen and four decimal digits; a letter position holds a
    letter of [[A-Z]] or one of the digits 0, 1, 3, 4, 5, 6. *)
Lemma read_plate_plate_like (dets : list detection) (t : str) (sc : option Q) :
  ascii_texts dets = true ->
  read_plate dets = Ok (Some t, sc) -> plate_like t.
Proof.
  intros _.
  unfold read_plate. apply scan_plate_like. intros t0 H. discriminate H.
Qed.

(** C8: a digit of the char->letter table at a letter position passes
    [license_complies_format] and is left as it is by the letter loop: the
    returned text has a digit at a letter position. *)
Theorem read_plate_digit_at_letter_position :
  read_plate [hyp "0K-7O89" 0.5] = Ok (Some (lit "0K-7089"), Some 0.5%Q)
  /\ re_upper "0"%char = false.
Proof. split; reflexivity. Qed.

(** Outside the defect of C4: when no hypothesis before the first one that
    matches the primary pattern makes [format_license] raise, that first
    match is returned with its own confidence, whatever follows it and
    whatever the confidences are. *)
Lemma scan_first_primary (pre post : list detection) (h : detection) (p : str) :
  Forall (fun d => extract_plate_format (text_of d) = None) pre ->
  Forall (fun d => complying d = true ->
                   exists t, format_license (text_of d) = Ok t) pre ->
  extract_plate_format (text_of h) = Some p ->
  forall bt bs,
    scan (pre ++ h :: post) bt bs = Ok (Some p, Some (score_of h)).
Proof.
  intros Hn Hr Hp. induction pre as [| d pre IH]; intros bt bs; simpl app.
  - apply scan_primary, Hp.
  - inversion Hn as [| ? ? Hd Hn']; subst. inversion Hr as [| ? ? Hf Hr']; subst.
    destruct (complying d) eqn:Hc.
    + rewrite (scan_candidate _ _ _ _ Hd Hc).
      destruct (Hf eq_refl) as [t ->]. simpl.
      destruct (Qlt_bool bs (score_of d)); apply IH; assumption.
    + rewrite (scan_skip _ _ _ _ Hd Hc). apply IH; assumption.
Qed.

(** C4: a hypothesis that complies with the format and makes
    [format_license] raise ends the scan before a later hypothesis that
    matches the primary pattern is reached. *)
Theorem read_plate_raises_before_primary_match :
  extract_plate_format (upper (lit "AB1234")) = Some (lit "AB-1234")
  /\ read_plate [hyp "KF-O617" 0.4; hyp "AB1234" 0.9]
     = Raise (KeyError "6"%char).
Proof. split; reflexivity. Qed.

(** Outside the defect of C5: when no hypothesis matches the primary
    pattern and [format_license] raises on none of the complying ones, the
    scan from ([bt], [bs]) either keeps ([bt], [bs]), no complying hypothesis
    having a confidence above [bs], or ends on the first complying hypothesis
    of greatest confidence: those before it are strictly below, those after
    it are not above. *)
Lemma scan_best (dets : list detection) :
  Forall (fun d => extract_plate_format (text_of d) = None) dets ->
  Forall (fun d => complying d = true ->
                   exists t, format_license (text_of d) = Ok t) dets ->
  forall bt bs,
    (scan dets bt bs = scan [] bt bs
     /\ Forall (fun d => complying d = true -> ~ (bs < score_of d)%Q) dets)
    \/
    (exists pre h post t,
        dets = pre ++ h :: post
        /\ complying h = true
        /\ format_license (text_of h) = Ok t
        /\ (bs < score_of h)%Q
        /\ Forall (fun d => complying d = true ->
                            (score_of d < score_of h)%Q) pre
        /\ Forall (fun d => complying d = true ->
                            (score_of d <= score_of h)%Q) post
        /\ scan dets bt bs = Ok (Some t, Some (score_of h))).
Proof.
  intros Hn Hr. induction dets as [| d rest IH]; intros bt bs.
  - left. split; [reflexivity | constructor].
  - inversion Hn as [| ? ? Hd Hn']; subst. inversion Hr as [| ? ? Hf Hr']; subst.
    specialize (IH Hn' Hr').
    destruct (complying d) eqn:Hc.
    + rewrite (scan_candidate _ _ _ _ Hd Hc).
      destruct (Hf eq_refl) as [t Ht]. rewrite Ht. simpl.
      destruct (Qlt_bool bs (score_of d)) eqn:Hlt.
      * apply Qlt_bool_iff in Hlt. right.
        destruct (IH (Some t) (score_of d))
          as [[E Hall] | (pre & h & post & t' & -> & Hh & Hth & Hs & Hpre & Hpost & E)].
        -- exists [], d, rest, t. simpl. repeat split; auto.
           ++ eapply Forall_impl; [| exact Hall]. simpl.
              intros a Ha Hca. apply Qnot_lt_le, Ha, Hca.
           ++ rewrite E. simpl.
              destruct (format_license_complying _ _ Hd Hc Ht)
                as (? & ? & ? & ? & ? & ? & -> & _).
              reflexivity.
        -- exists (d :: pre), h, post, t'. simpl. repeat split; auto.
           eapply Qlt_trans; eassumption.
      * assert (Hge : ~ (bs < score_of d)%Q).
        { intros H. apply Qlt_bool_iff in H. congruence. }
        destruct (IH bt bs)
          as [[E Hall] | (pre & h & post & t' & -> & Hh & Hth & Hs & Hpre & Hpost & E)].
        -- left. split; [exact E | constructor; auto].
        -- right. exists (d :: pre), h, post, t'. simpl. repeat split; auto.
           constructor; auto. intros _.
           eapply Qle_lt_trans; [apply Qnot_lt_le, Hge | exact Hs].
    + rewrite (scan_skip _ _ _ _ Hd Hc).
      destruct (IH bt bs)
        as [[E Hall] | (pre & h & post & t' & -> & Hh & Hth & Hs & Hpre & Hpost & E)].
      * left. split; [exact E | constructor; auto]. intros H; congruence.
      * right. exists (d :: pre), h, post, t'. simpl. repeat split; auto.
        constructor; auto. intros H; congruence.
Qed.

(** X17: on hypotheses with ASCII texts, when no hypothesis matches the
    primary pattern and
    [format_license] raises on none of the complying ones, the reduction
    returns (None, None) if no complying hypothesis has a confidence above
    0, and otherwise the formatted text and the confidence of the first
    complying hypothesis of greatest confidence: the complying ones before
    it are strictly below, those after it are not above. *)
Lemma read_plate_best (dets : list detection) :
  ascii_texts dets = true ->
  Forall (fun d => extract_plate_format (text_of d) = None) dets ->
  Forall (fun d => complying d = true ->
                   exists t, format_license (text_of d) = Ok t) dets ->
  (read_plate dets = Ok (None, None)
   /\ Forall (fun d => complying d = true -> ~ (0 < score_of d)%Q) dets)
  \/
  (exists pre h post t,
      dets = pre ++ h :: post
      /\ complying h = true
      /\ format_license (text_of h) = Ok t
      /\ (0 < score_of h)%Q
      /\ Forall (fun d => complying d = true ->
                          (score_of d < score_of h)%Q) pre
      /\ Forall (fun d => complying d = true ->
                          (score_of d <= score_of h)%Q) post
      /\ read_plate dets = Ok (Some t, Some (score_of h))).
Proof.
  intros _ Hn Hr. unfold read_plate.
  destruct (scan_best dets Hn Hr None 0%Q) as [[E Hall] | H].
  - left. split; [rewrite E; reflexivity | exact Hall].
  - right. exact H.
Qed.

(** C5: a single hypothesis that misses the primary pattern and passes
    [license_complies_format] is not returned as the best one when its number
    part holds a digit of the char->letter table: the scan raises. *)
Theorem read_plate_raises_on_complying_hypothesis :
  extract_plate_format (upper (lit "NWKF-12O4")) = None
  /\ license_complies_format (upper (lit "NWKF-12O4")) = true
  /\ read_plate [hyp "NWKF-12O4" 0.7] = Raise (KeyError "1"%char).
Proof. repeat split. Qed.

(** X19, outside the defect of C10: on hypotheses with ASCII texts, when no
    hypothesis matches the primary
    pattern, [format_license] raises on none of the complying ones and each
    of them has confidence 0, (None, None) is returned. *)
Lemma read_plate_confidence_zero (dets : list detection) :
  ascii_texts dets = true ->
  Forall (fun d => extract_plate_format (text_of d) = None) dets ->
  Forall (fun d => complying d = true ->
                   exists t, format_license (text_of d) = Ok t) dets ->
  Forall (fun d => complying d = true -> (score_of d == 0)%Q) dets ->
  read_plate dets = Ok (None, None).
Proof.
  intros _ Hn Hr Hz. unfold read_plate.
  destruct (scan_best dets Hn Hr None 0%Q)
    as [[E _] | (pre & h & post & t & -> & Hh & _ & Hs & _)].
  - rewrite E. reflexivity.
  - rewrite Forall_forall in Hz.
    assert (Hin : In h (pre ++ h :: post)) by (apply in_elt).
    specialize (Hz h Hin Hh). rewrite Hz in Hs.
    exfalso. revert Hs. apply Qlt_irrefl.
Qed.

(** C10: a complying hypothesis of confidence 0 is formatted before its
    confidence is compared, so the scan raises where [format_license] does,
    and does not return (None, None). *)
Theorem read_plate_raises_at_confidence_zero :
  extract_plate_format (upper (lit "KF-O617")) = None
  /\ license_complies_format (upper (lit "KF-O617")) = true
  /\ read_plate [hyp "KF-O617" 0] = Raise (KeyError "6"%char).
Proof. repeat split. Qed.

(** ** Operations that raise *)

(** C2: [format_license] and the reduction of [read_license_plate] can end
    in an exception: a digit among 0, 1, 3, 4, 5, 6 in the number part of a
    text that misses the primary pattern raises [KeyError]. *)
Theorem format_license_and_read_plate_raise :
  format_license (lit "X-1") = Raise (KeyError "1"%char)
  /\ read_license_plate (Some [Some [hyp "KF-O617" 0.4; hyp "KF-0617" 0.8]])
     = Raise (KeyError "6"%char).
Proof. split; reflexivity. Qed.

(** * Further properties of the code *)

(** ** Case and spaces *)

Lemma upper_char_idem (c : ascii) : upper_char (upper_char c) = upper_char c.
Proof. destruct c as [[] [] [] [] [] [] [] []]; reflexivity. Qed.

Lemma upper_idem (s : str) : upper (upper s) = upper s.
Proof.
  unfold upper. rewrite map_map. apply map_ext. exact upper_char_idem.
Qed.

Lemma scan_upper (dets : list detection) (bt : option str) (bs : Q) :
  scan (map (fun d => (fst d, (upper (fst (snd d)), snd (snd d)))) dets) bt bs
  = scan dets bt bs.
Proof.
  revert bt bs. induction dets as [| [q [t sc]] rest IH]; intros bt bs.
  - reflexivity.
  - simpl. rewrite upper_idem.
    destruct (extract_plate_format (upper t)) as [[| ? ?] |];
      try reflexivity;
      (destruct (license_complies_format (upper t)); [| apply IH];
       destruct (format_license (upper t)); simpl; [| reflexivity];
       destruct (Qlt_bool bs sc); apply IH).
Qed.

(** X1: on ASCII texts the three text functions do not see the case of the
    letters: a text and its upper-cased form get the same answer, so the
    [text.upper()] of [read_license_plate] changes nothing, and a list of
    hypotheses and the same list with upper-cased texts get the same
    reading. *)
Theorem text_functions_ignore_case (text : str) (dets : list detection) :
  is_ascii text = true ->
  ascii_texts dets = true ->
  extract_plate_format (upper text) = extract_plate_format text
  /\ license_complies_format (upper text) = license_complies_format text
  /\ format_license (upper text) = format_license text
  /\ read_plate (map (fun d => (fst d, (upper (fst (snd d)), snd (snd d)))) dets)
     = read_plate dets.
Proof.
  intros _ _.
  unfold extract_plate_format, license_complies_format, format_license,
    extract_plate_format, dense, read_plate.
  rewrite upper_idem, scan_upper. repeat split.
Qed.

Lemma text_functions_ignore_case_witness :
  extract_plate_format (upper (lit "nw kf-7617"))
  = extract_plate_format (lit "nw kf-7617")
  /\ license_complies_format (upper (lit "nw kf-7617"))
     = license_complies_format (lit "nw kf-7617")
  /\ format_license (upper (lit "nw kf-7617")) = format_license (lit "nw kf-7617")
  /\ read_plate (map (fun d => (fst d, (upper (fst (snd d)), snd (snd d))))
                   [hyp "kf-7o89" 0.4; hyp "ab1234" 0.9])
     = read_plate [hyp "kf-7o89" 0.4; hyp "ab1234" 0.9].
Proof.
  apply text_functions_ignore_case; reflexivity.
Defined.

Lemma stripped_insert_space (a b : str) :
  remove_char space (upper (a ++ space :: b))
  = remove_char space (upper (a ++ b)).
Proof.
  unfold remove_char, upper. rewrite !map_app, !filter_app. reflexivity.
Qed.

(** X2: a space anywhere in an ASCII text changes nothing: the three text
    functions give the same answer with and without it. *)
Theorem text_functions_ignore_spaces (a b : str) :
  is_ascii a = true ->
  is_ascii b = true ->
  extract_plate_format (a ++ space :: b) = extract_plate_format (a ++ b)
  /\ license_complies_format (a ++ space :: b)
     = license_complies_format (a ++ b)
  /\ format_license (a ++ space :: b) = format_license (a ++ b).
Proof.
  intros _ _.
  unfold format_license, license_complies_format, extract_plate_format, dense.
  rewrite stripped_insert_space. repeat split.
Qed.

Lemma text_functions_ignore_spaces_witness :
  extract_plate_format (lit "nwk" ++ space :: lit "f-7O89")
  = extract_plate_format (lit "nwk" ++ lit "f-7O89")
  /\ license_complies_format (lit "nwk" ++ space :: lit "f-7O89")
     = license_complies_format (lit "nwk" ++ lit "f-7O89")
  /\ format_license (lit "nwk" ++ space :: lit "f-7O89")
     = format_license (lit "nwk" ++ lit "f-7O89").
Proof.
  apply text_functions_ignore_spaces; reflexivity.
Defined.

(** ** Texts that are already plates *)

Lemma number_ok_digit (c : ascii) : re_digit c = true -> number_ok c = true.
Proof.
  destruct c as [[] [] [] [] [] [] [] []]; vm_compute;
    intros H; try discriminate H; reflexivity.
Qed.

Lemma plate_text_fixed (l1 l2 d1 d2 d3 d4 : ascii) :
  re_upper l1 && re_upper l2 = true ->
  re_digit d1 && re_digit d2 && re_digit d3 && re_digit d4 = true ->
  let t := [l1; l2; hyphen; d1; d2; d3; d4] in
  extract_plate_format t = Some t
  /\ license_complies_format t = true
  /\ format_license t = Ok t.
Proof.
  intros Hl Hd t. rewrite !andb_true_iff in Hl. rewrite !andb_true_iff in Hd.
  destruct Hl as [U1 U2], Hd as [[[D1 D2] D3] D4].
  destruct (plain_char l1) as (Pl1 & S1 & H1); [rewrite U1; reflexivity |].
  destruct (plain_char l2) as (Pl2 & S2 & H2); [rewrite U2; reflexivity |].
  destruct (plain_char d1) as (Pd1 & S3 & H3); [rewrite D1; apply orb_true_r |].
  destruct (plain_char d2) as (Pd2 & S4 & H4); [rewrite D2; apply orb_true_r |].
  destruct (plain_char d3) as (Pd3 & S5 & H5); [rewrite D3; apply orb_true_r |].
  destruct (plain_char d4) as (Pd4 & S6 & H6); [rewrite D4; apply orb_true_r |].
  assert (Es : remove_char space (upper t) = t).
  { unfold t, remove_char, upper. simpl.
    rewrite Pl1, Pl2, Pd1, Pd2, Pd3, Pd4, S1, S2, S3, S4, S5, S6.
    reflexivity. }
  assert (Ee : extract_plate_format t = Some t).
  { unfold extract_plate_format, dense. rewrite Es.
    unfold t, remove_char. simpl. rewrite H1, H2, H3, H4, H5, H6. simpl.
    rewrite U1, U2, D1, D2, D3, D4. reflexivity. }
  split; [exact Ee | split].
  - assert (Hc : contains_char hyphen t = true).
    { apply existsb_exists. exists hyphen. split; [simpl; tauto | reflexivity]. }
    unfold license_complies_format. rewrite Es, Hc. unfold t. simpl split.
    rewrite H1, H2, H3, H4, H5, H6. simpl.
    unfold valid_parts. simpl.
    rewrite (letter_ok_upper _ U1), (letter_ok_upper _ U2).
    rewrite (number_ok_digit _ D1), (number_ok_digit _ D2),
      (number_ok_digit _ D3), (number_ok_digit _ D4).
    reflexivity.
  - unfold format_license. rewrite Ee. reflexivity.
Qed.

(** X3: what the primary extraction returns for an ASCII text is a fixed
    point of the three text functions: extracting from it or formatting it gives it back, and it
    complies with the format.  So [format_license] applied twice is
    [format_license] applied once on every text the primary pattern matches. *)
Theorem extracted_plate_is_fixed (text t : str) :
  is_ascii text = true ->
  extract_plate_format text = Some t ->
  format_license text = Ok t
  /\ extract_plate_format t = Some t
  /\ license_complies_format t = true
  /\ format_license t = Ok t.
Proof.
  intros _ E.
  destruct (extract_plate_format_shape _ _ E)
    as (l1 & l2 & d1 & d2 & d3 & d4 & -> & Hl & Hd).
  split; [| exact (plate_text_fixed _ _ _ _ _ _ Hl Hd)].
  unfold format_license. rewrite E. reflexivity.
Qed.

Lemma extracted_plate_is_fixed_witness :
  format_license (lit "nw kf-7617") = Ok (lit "KF-7617")
  /\ extract_plate_format (lit "KF-7617") = Some (lit "KF-7617")
  /\ license_complies_format (lit "KF-7617") = true
  /\ format_license (lit "KF-7617") = Ok (lit "KF-7617").
Proof.
  apply (extracted_plate_is_fixed (lit "nw kf-7617") (lit "KF-7617"));
    reflexivity.
Defined.

(** ** Texts without a hyphen *)

Lemma span_spec (p : ascii -> bool) (s a b : str) :
  span p s = (a, b) -> s = a ++ b /\ forallb p a = true.
Proof.
  revert a b. induction s as [| c s IH]; intros a b; simpl.
  - intros [= <- <-]. auto.
  - destruct (p c) eqn:Hc.
    + destruct (span p s) as [a' b'] eqn:E. intros [= <- <-].
      destruct (IH _ _ eq_refl) as [-> Ha]. simpl. rewrite Hc, Ha. auto.
    + intros [= <- <-]. auto.
Qed.

Lemma match_loose_at_some (u g1 g2 : str) :
  match_loose_at u = Some (g1, g2) ->
  exists rest,
    u = g1 ++ g2 ++ rest
    /\ forallb re_upper g1 = true
    /\ length g2 = 4 /\ forallb re_digit g2 = true.
Proof.
  unfold match_loose_at. destruct (span re_upper u) as [a b] eqn:E.
  apply span_spec in E. destruct E as [-> Ha].
  destruct a as [| a0 a]; [discriminate |].
  destruct b as [| d1 [| d2 [| d3 [| d4 rest]]]]; try discriminate.
  destruct (re_digit d1 && re_digit d2 && re_digit d3 && re_digit d4
            && at_end rest) eqn:D; [| discriminate].
  intros [= <- <-]. exists rest. rewrite !andb_true_iff in D.
  destruct D as [[[[D1 D2] D3] D4] _]. simpl forallb at 2.
  rewrite D1, D2, D3, D4. auto.
Qed.

Lemma remove_char_absent (c : ascii) (s : str) :
  contains_char c s = false -> remove_char c s = s.
Proof.
  unfold contains_char, remove_char.
  induction s as [| x s IH]; cbn [existsb filter]; [reflexivity |].
  intros H. apply orb_false_iff in H. destruct H as [Hx Hs].
  rewrite Ascii.eqb_sym, Hx. cbn [negb]. f_equal. apply IH, Hs.
Qed.

Lemma upper_char_hyphen (c : ascii) :
  Ascii.eqb hyphen (upper_char c) = Ascii.eqb hyphen c.
Proof. destruct c as [[] [] [] [] [] [] [] []]; reflexivity. Qed.

Lemma stripped_no_hyphen (text : str) :
  contains_char hyphen text = false ->
  contains_char hyphen (remove_char space (upper text)) = false.
Proof.
  unfold contains_char, remove_char, upper.
  induction text as [| c s IH]; cbn [existsb map filter]; [reflexivity |].
  intros H. apply orb_false_iff in H. destruct H as [Hc Hs].
  destruct (negb (Ascii.eqb (upper_char c) space)); cbn [existsb].
  - rewrite upper_char_hyphen, Hc. apply IH, Hs.
  - apply IH, Hs.
Qed.

(** On a string that holds no place of the primary pattern, the loose
    pattern can only match with a single letter before the digits. *)
Lemma loose_without_strict (s g1 g2 : str) :
  re_search match_strict_at s = None ->
  re_search match_loose_at s = Some (g1, g2) ->
  length g1 < 2.
Proof.
  intros Hs Hl. apply re_search_some in Hl.
  destruct Hl as (k & Hk & Hm & _). apply match_loose_at_some in Hm.
  destruct Hm as (rest & E & Ug & Hlen & Dg).
  destruct (Nat.lt_ge_cases (length g1) 2) as [| Hge]; [assumption |].
  exfalso.
  assert (P : plate_at s (k + (length g1 - 2)) (last2 g1) g2).
  { exists (firstn k s ++ firstn (length g1 - 2) g1), rest.
    unfold last2. repeat split.
    - rewrite <- app_assoc, (app_assoc (firstn _ g1)), firstn_skipn, <- E.
      symmetry. apply firstn_skipn.
    - rewrite length_app, !firstn_length_le by lia. reflexivity.
    - rewrite length_skipn. lia.
    - rewrite <- (firstn_skipn (length g1 - 2) g1), forallb_app in Ug.
      apply andb_true_iff in Ug. tauto.
    - assumption.
    - assumption. }
  apply plate_at_iff in P. destruct P as [_ P].
  rewrite (re_search_none _ _ Hs) in P. discriminate.
Qed.

(** X4: an ASCII text without a hyphen that misses the primary pattern never
    complies with the format: with two letters before four final digits the
    primary pattern would have matched.  In [read_license_plate] such a
    hypothesis is passed over. *)
Theorem no_hyphen_complies_only_through_primary (text : str) :
  is_ascii text = true ->
  contains_char hyphen text = false ->
  extract_plate_format text = None ->
  license_complies_format text = false.
Proof.
  intros _ Hh He. pose proof (stripped_no_hyphen _ Hh) as Hh'.
  unfold license_complies_format. rewrite Hh'.
  destruct (re_search match_loose_at (remove_char space (upper text)))
    as [[g1 g2] |] eqn:El; [| reflexivity].
  unfold extract_plate_format, dense in He.
  rewrite (remove_char_absent _ _ Hh') in He.
  destruct (re_search match_strict_at (remove_char space (upper text)))
    as [[? ?] |] eqn:Es; [discriminate |].
  pose proof (loose_without_strict _ _ _ Es El) as Hlt.
  unfold valid_parts, last2.
  replace (length (skipn (length g1 - 2) g1) =? 2) with false; [reflexivity |].
  symmetry. apply Nat.eqb_neq. rewrite length_skipn. lia.
Qed.

Lemma no_hyphen_complies_only_through_primary_witness :
  license_complies_format (lit "1 f7289") = false.
Proof.
  apply no_hyphen_complies_only_through_primary; reflexivity.
Defined.

(** ** When format_license raises *)

Lemma format_number_returns (c : ascii) :
  in_keys c dict_int_to_char = false -> exists x, format_number c = Ok x.
Proof.
  destruct c as [[] [] [] [] [] [] [] []]; vm_compute;
    intros H; try discriminate H; eauto.
Qed.

Lemma format_number_raises (c : ascii) :
  in_keys c dict_int_to_char = true -> format_number c = Raise (KeyError c).
Proof. apply format_number_cases. Qed.

(** The number loop raises exactly at the first key of char->letter. *)
Lemma for_chars_format_number_raise (s : str) (e : exn) :
  forall acc,
    for_chars format_number s acc = Raise e <->
    exists pre c post,
      s = pre ++ c :: post
      /\ forallb (fun x => negb (in_keys x dict_int_to_char)) pre = true
      /\ in_keys c dict_int_to_char = true
      /\ e = KeyError c.
Proof.
  induction s as [| a s IH]; intros acc; cbn [for_chars].
  - split; [discriminate |].
    intros (pre & c & post & E & _). destruct pre; discriminate E.
  - destruct (in_keys a dict_int_to_char) eqn:Ha.
    + rewrite (format_number_raises _ Ha). cbn [bind]. split.
      * intros [= <-]. exists [], a, s. auto.
      * intros (pre & c & post & E & Hpre & Hc & ->).
        destruct pre as [| x pre]; cbn [app] in E; injection E as <- E.
        -- reflexivity.
        -- cbn [forallb] in Hpre. rewrite Ha in Hpre. discriminate Hpre.
    + destruct (format_number_returns _ Ha) as [x ->]. cbn [bind].
      rewrite IH. split.
      * intros (pre & c & post & -> & Hpre & Hc & ->).
        exists (a :: pre), c, post. cbn [app forallb]. rewrite Ha. auto.
      * intros (pre & c & post & E & Hpre & Hc & ->).
        destruct pre as [| y pre]; cbn [app] in E; injection E as <- E.
        -- congruence.
        -- cbn [forallb] in Hpre. rewrite Ha in Hpre. cbn [negb andb] in Hpre.
           exists pre, c, post. auto.
Qed.

(** X5: on an ASCII text [format_license] raises in one situation only: the
    text misses the
    primary pattern, the fallback parse gives a letter part and a number
    part, and the number part holds a key of the char->letter table (one of
    the digits 0, 1, 3, 4, 5, 6).  The exception is the [KeyError] of the
    first such digit. *)
Theorem format_license_raises_iff (text : str) (e : exn) :
  is_ascii text = true ->
  format_license text = Raise e <->
  extract_plate_format text = None
  /\ exists letters pre c post,
       fallback_parts text = Some (letters, pre ++ c :: post)
       /\ forallb (fun x => negb (in_keys x dict_int_to_char)) pre = true
       /\ in_keys c dict_int_to_char = true
       /\ e = KeyError c.
Proof.
  intros _.
  destruct (extract_plate_format text) as [t |] eqn:He.
  - split.
    + intros H. unfold format_license in H. rewrite He in H.
      destruct (extract_plate_format_shape _ _ He)
        as (? & ? & ? & ? & ? & ? & -> & _).
      discriminate H.
    + intros [H _]. discriminate H.
  - rewrite (format_license_fallback _ He).
    destruct (fallback_parts text) as [[letters numbers] |].
    + unfold format_parts. rewrite for_chars_format_letter. simpl.
      split.
      * intros H. split; [reflexivity |].
        destruct (for_chars format_number numbers []) as [ns | e'] eqn:En;
          simpl in H; [discriminate H |].
        injection H as ->. apply for_chars_format_number_raise in En.
        destruct En as (pre & c & post & -> & Hpre & Hc & ->).
        exists letters, pre, c, post. auto.
      * intros (_ & letters' & pre & c & post & [= <- ->] & Hpre & Hc & ->).
        assert (En : for_chars format_number (pre ++ c :: post) []
                     = Raise (KeyError c)).
        { apply for_chars_format_number_raise.
          exists pre, c, post. auto. }
        rewrite En. reflexivity.
    + split; [discriminate |].
      intros (_ & ? & ? & ? & ? & H & _). discriminate H.
Qed.

Lemma format_license_raises_iff_witness :
  format_license (lit "nwkf-72O4") = Raise (KeyError "4"%char).
Proof.
  apply (proj2 (format_license_raises_iff (lit "nwkf-72O4") _ eq_refl)).
  split; [reflexivity |].
  exists (lit "KF"), (lit "72O"), "4"%char, []. repeat split.
Defined.

(** ** Where a reading comes from *)

Lemma scan_provenance (dets : list detection) :
  forall (bt : option str) (bs : Q) (r : reading),
    scan dets bt bs = Ok r ->
    r = (None, None)
    \/ (r = (bt, Some bs) /\ truthy bt = true)
    \/ exists h t,
         In h dets /\ r = (Some t, Some (score_of h)) /\ yields h t.
Proof.
  induction dets as [| d rest IH]; intros bt bs r.
  - cbn [scan]. destruct (truthy bt) eqn:Hb; intros [= <-]; auto.
  - assert (lift : forall bt' bs',
               scan rest bt' bs' = Ok r ->
               (bt' = bt /\ bs' = bs) \/ (exists t, bt' = Some t /\ bs' = score_of d
                                                    /\ yields d t) ->
               r = (None, None)
               \/ (r = (bt, Some bs) /\ truthy bt = true)
               \/ exists h t,
                    In h (d :: rest) /\ r = (Some t, Some (score_of h))
                    /\ yields h t).
    { intros bt' bs' Hs Hst.
      destruct (IH _ _ _ Hs) as [-> | [[-> Ht] | (h & t & Hin & -> & Hy)]].
      - auto.
      - destruct Hst as [[-> ->] | (t & -> & -> & Hy)]; [auto |].
        right. right. exists d, t. simpl. auto.
      - right. right. exists h, t. simpl. auto. }
    destruct (extract_plate_format (text_of d)) as [p |] eqn:He.
    + rewrite (scan_primary _ _ _ _ _ He). intros [= <-].
      right. right. exists d, p. unfold yields. simpl. auto.
    + destruct (complying d) eqn:Hc.
      * rewrite (scan_candidate _ _ _ _ He Hc).
        destruct (format_license (text_of d)) as [t | e] eqn:Hf;
          cbn [bind]; [| discriminate].
        destruct (Qlt_bool bs (score_of d)); intros Hs.
        -- apply (lift _ _ Hs). right. exists t. unfold yields.
           split; [reflexivity | split; [reflexivity | right; auto]].
        -- apply (lift _ _ Hs). auto.
      * rewrite (scan_skip _ _ _ _ He Hc). intros Hs.
        apply (lift _ _ Hs). auto.
Qed.

(** X6: on hypotheses with ASCII texts, what [read_license_plate]'s
    reduction returns is either
    (None, None) or comes from one hypothesis of the list: the confidence is
    that hypothesis's own, and the text is what the primary extraction, or
    else [format_license] on a complying text, makes of its text.  Text and
    confidence are never [None] one without the other. *)
Theorem read_plate_provenance (dets : list detection) (r : reading) :
  ascii_texts dets = true ->
  read_plate dets = Ok r ->
  r = (None, None)
  \/ exists h t,
       In h dets /\ r = (Some t, Some (score_of h)) /\ yields h t.
Proof.
  intros _ H. destruct (scan_provenance _ _ _ _ H) as [E | [[_ Ht] | E]]; auto.
  discriminate Ht.
Qed.

Lemma read_plate_provenance_witness :
  (Some (lit "KF-7089"), Some 0.5%Q) = (None, None)
  \/ exists h t,
       In h [hyp "ab" 0.9; hyp "kf-7O89" 0.5]
       /\ (Some (lit "KF-7089"), Some 0.5%Q) = (Some t, Some (score_of h))
       /\ yields h t.
Proof.
  apply (read_plate_provenance [hyp "ab" 0.9; hyp "kf-7O89" 0.5]);
    reflexivity.
Defined.

(** ** When the scan raises *)

Lemma scan_raises_iff (dets : list detection) (e : exn) :
  forall (bt : option str) (bs : Q),
    scan dets bt bs = Raise e <->
    exists pre h post,
      dets = pre ++ h :: post
      /\ Forall (fun d => extract_plate_format (text_of d) = None
                          /\ (complying d = true ->
                              exists t, format_license (text_of d) = Ok t)) pre
      /\ extract_plate_format (text_of h) = None
      /\ complying h = true
      /\ format_license (text_of h) = Raise e.
Proof.
  induction dets as [| d rest IH]; intros bt bs.
  - cbn [scan]. split.
    + destruct (truthy bt); discriminate.
    + intros (pre & h & post & E & _). destruct pre; discriminate E.
  - assert (shift : forall bt' bs',
               (complying d = true ->
                exists t, format_license (text_of d) = Ok t) ->
               extract_plate_format (text_of d) = None ->
               (scan rest bt' bs' = Raise e <->
                exists pre h post,
                  d :: rest = pre ++ h :: post
                  /\ Forall (fun d => extract_plate_format (text_of d) = None
                                      /\ (complying d = true ->
                                          exists t, format_license (text_of d) = Ok t)) pre
                  /\ extract_plate_format (text_of h) = None
                  /\ complying h = true
                  /\ format_license (text_of h) = Raise e)).
    { intros bt' bs' Hok He. rewrite IH. split.
      - intros (pre & h & post & -> & Hpre & Hh).
        exists (d :: pre), h, post. cbn [app]. repeat split; try tauto.
        constructor; auto.
      - intros (pre & h & post & E & Hpre & Heh & Hch & Hfh).
        destruct pre as [| x pre]; cbn [app] in E; injection E as <- E.
        + destruct (Hok Hch) as [t Ht]. congruence.
        + inversion Hpre; subst. exists pre, h, post. auto. }
    destruct (extract_plate_format (text_of d)) as [p |] eqn:He.
    + rewrite (scan_primary _ _ _ _ _ He). split; [discriminate |].
      intros (pre & h & post & E & Hpre & Heh & _).
      destruct pre as [| x pre]; cbn [app] in E; injection E as <- E.
      * congruence.
      * inversion Hpre as [| ? ? [Hx _] _]; subst. congruence.
    + destruct (complying d) eqn:Hc.
      * rewrite (scan_candidate _ _ _ _ He Hc).
        destruct (format_license (text_of d)) as [t | e'] eqn:Hf; cbn [bind].
        -- destruct (Qlt_bool bs (score_of d)); apply shift; eauto.
        -- split.
           ++ intros [= ->]. exists [], d, rest. cbn [app]. auto.
           ++ intros (pre & h & post & E & Hpre & Heh & Hch & Hfh).
              destruct pre as [| x pre]; cbn [app] in E; injection E as <- E.
              ** congruence.
              ** inversion Hpre as [| ? ? [_ Hx] _]; subst.
                 destruct (Hx Hc) as [t Ht]. congruence.
      * rewrite (scan_skip _ _ _ _ He Hc). apply shift; auto.
        intros H. congruence.
Qed.

(** X7: on hypotheses with ASCII texts, the reduction of
    [read_license_plate] raises exactly when it
    reaches a hypothesis that misses the primary pattern, complies with the
    format and makes [format_license] raise, no earlier hypothesis having
    matched the primary pattern or raised; the exception is that of
    [format_license]. *)
Theorem read_plate_raises_iff (dets : list detection) (e : exn) :
  ascii_texts dets = true ->
  read_plate dets = Raise e <->
  exists pre h post,
    dets = pre ++ h :: post
    /\ Forall (fun d => extract_plate_format (text_of d) = None
                        /\ (complying d = true ->
                            exists t, format_license (text_of d) = Ok t)) pre
    /\ extract_plate_format (text_of h) = None
    /\ complying h = true
    /\ format_license (text_of h) = Raise e.
Proof. intros _. apply scan_raises_iff. Qed.

Lemma read_plate_raises_iff_witness :
  read_plate [hyp "kf-7O89" 0.9; hyp "zz" 0.3; hyp "nwkf-12O4" 0.7;
              hyp "AB1234" 0.5]
  = Raise (KeyError "1"%char).
Proof.
  apply (proj2 (read_plate_raises_iff
                  [hyp "kf-7O89" 0.9; hyp "zz" 0.3; hyp "nwkf-12O4" 0.7;
                   hyp "AB1234" 0.5] _ eq_refl)).
  exists [hyp "kf-7O89" 0.9; hyp "zz" 0.3], (hyp "nwkf-12O4" 0.7),
    [hyp "AB1234" 0.5].
  split; [reflexivity |]. split.
  - repeat constructor; intros H; try discriminate H; eexists; reflexivity.
  - repeat split.
Defined.

(** ** The reduction when nothing raises *)

(** X8: on hypotheses with ASCII texts, when no hypothesis before the first
    one that matches the primary
    pattern makes [format_license] raise, the reduction returns that first
    match with its own confidence, whatever the confidences of the others
    and whatever follows it. *)
Theorem read_plate_first_primary
        (pre post : list detection) (h : detection) (p : str) :
  ascii_texts (pre ++ h :: post) = true ->
  Forall (fun d => extract_plate_format (text_of d) = None) pre ->
  Forall (fun d => complying d = true ->
                   exists t, format_license (text_of d) = Ok t) pre ->
  extract_plate_format (text_of h) = Some p ->
  read_plate (pre ++ h :: post) = Ok (Some p, Some (score_of h)).
Proof. intros _ Hn Hr Hp. apply scan_first_primary; assumption. Qed.

Lemma read_plate_first_primary_witness :
  read_plate ([hyp "kf-7O89" 0.9; hyp "??" 0.8]
              ++ hyp "nw ab-1234" 0.1 :: [hyp "CD5678" 0.7; hyp "KF-O617" 0.9])
  = Ok (Some (lit "AB-1234"), Some (score_of (hyp "nw ab-1234" 0.1))).
Proof.
  apply read_plate_first_primary.
  - reflexivity.
  - repeat constructor.
  - repeat constructor; intros _; eexists; reflexivity.
  - reflexivity.
Defined.

Lemma read_plate_best_witness :
  (read_plate [hyp "kf-7O89" 0.4; hyp "x" 0.9; hyp "ab-OOO7" 0.6;
               hyp "cd-2O22" 0.6]
   = Ok (None, None)
   /\ Forall (fun d => complying d = true -> ~ (0 < score_of d)%Q)
        [hyp "kf-7O89" 0.4; hyp "x" 0.9; hyp "ab-OOO7" 0.6; hyp "cd-2O22" 0.6])
  \/
  (exists pre h post t,
      [hyp "kf-7O89" 0.4; hyp "x" 0.9; hyp "ab-OOO7" 0.6; hyp "cd-2O22" 0.6]
      = pre ++ h :: post
      /\ complying h = true
      /\ format_license (text_of h) = Ok t
      /\ (0 < score_of h)%Q
      /\ Forall (fun d => complying d = true ->
                          (score_of d < score_of h)%Q) pre
      /\ Forall (fun d => complying d = true ->
                          (score_of d <= score_of h)%Q) post
      /\ read_plate [hyp "kf-7O89" 0.4; hyp "x" 0.9; hyp "ab-OOO7" 0.6;
                     hyp "cd-2O22" 0.6]
         = Ok (Some t, Some (score_of h))).
Proof.
  apply read_plate_best.
  - reflexivity.
  - repeat constructor.
  - repeat constructor; intros H; try discriminate H; eexists; reflexivity.
Defined.

Lemma read_plate_plate_like_witness : plate_like (lit "0K-7089").
Proof.
  apply (read_plate_plate_like [hyp "0k-7O89" 0.5] _ (Some 0.5%Q));
    reflexivity.
Defined.

(** ** Texts with several hyphens *)

Lemma split_length_pos (sep : ascii) (s : str) : 1 <= length (split sep s).
Proof.
  induction s as [| c s IH]; cbn [split length]; [lia |].
  destruct (Ascii.eqb c sep); cbn [length]; [lia |].
  destruct (split sep s); cbn [length] in *; lia.
Qed.

Lemma split_length_app (sep : ascii) (a b : str) :
  length (split sep (a ++ sep :: b))
  = length (split sep a) + length (split sep b).
Proof.
  induction a as [| c a IH]; cbn [app split].
  - rewrite Ascii.eqb_refl. reflexivity.
  - destruct (Ascii.eqb c sep); cbn [length]; [lia |].
    pose proof (split_length_pos sep a) as Ha.
    pose proof (split_length_pos sep (a ++ sep :: b)) as Hab.
    destruct (split sep (a ++ sep :: b)), (split sep a);
      cbn [length] in *; lia.
Qed.

Lemma stripped_app_hyphen (a b : str) :
  remove_char space (upper (a ++ hyphen :: b))
  = remove_char space (upper a) ++ hyphen :: remove_char space (upper b).
Proof.
  unfold remove_char, upper. rewrite map_app, filter_app. reflexivity.
Qed.

(** X9: an ASCII text with two hyphens or more that misses the primary
    pattern
    does not comply with the format, and [format_license] returns it
    upper-cased and without its spaces, hyphens included. *)
Theorem two_hyphens_not_formatted (a b c : str) :
  is_ascii (a ++ hyphen :: b ++ hyphen :: c) = true ->
  extract_plate_format (a ++ hyphen :: b ++ hyphen :: c) = None ->
  license_complies_format (a ++ hyphen :: b ++ hyphen :: c) = false
  /\ format_license (a ++ hyphen :: b ++ hyphen :: c)
     = Ok (remove_char space (upper (a ++ hyphen :: b ++ hyphen :: c))).
Proof.
  intros _ He.
  assert (Hf : fallback_parts (a ++ hyphen :: b ++ hyphen :: c) = None).
  { unfold fallback_parts. rewrite !stripped_app_hyphen.
    set (a' := remove_char space (upper a)).
    set (b' := remove_char space (upper b)).
    set (c' := remove_char space (upper c)).
    assert (Hc : contains_char hyphen (a' ++ hyphen :: b' ++ hyphen :: c')
                 = true).
    { apply existsb_exists. exists hyphen. split; [| reflexivity].
      apply in_elt. }
    rewrite Hc.
    pose proof (split_length_app hyphen a' (b' ++ hyphen :: c')) as L.
    rewrite (split_length_app hyphen b' c') in L.
    pose proof (split_length_pos hyphen a').
    pose proof (split_length_pos hyphen b').
    pose proof (split_length_pos hyphen c').
    destruct (split hyphen (a' ++ hyphen :: b' ++ hyphen :: c'))
      as [| p0 [| p1 [| p2 ps]]]; cbn [length] in L; try reflexivity; lia. }
  split.
  - rewrite license_complies_format_parts, Hf. reflexivity.
  - rewrite (format_license_fallback _ He), Hf. reflexivity.
Qed.

Lemma two_hyphens_not_formatted_witness :
  license_complies_format (lit "nw" ++ hyphen :: lit "kf" ++ hyphen :: lit "7O89")
  = false
  /\ format_license (lit "nw" ++ hyphen :: lit "kf" ++ hyphen :: lit "7O89")
     = Ok (remove_char space
             (upper (lit "nw" ++ hyphen :: lit "kf" ++ hyphen :: lit "7O89"))).
Proof.
  apply two_hyphens_not_formatted; reflexivity.
Defined.

(** ** get_car on a longer list *)

Lemma find_index_first (p : plate_box) (vs : list vehicle) :
  forall j,
    match find_index p vs j with
    | Some k =>
        j <= k
        /\ nth (k - j) vs NOT_FOUND = hd NOT_FOUND (filter (inside p) vs)
    | None => filter (inside p) vs = []
    end.
Proof.
  induction vs as [| v vs IH]; intros j; cbn [find_index filter].
  - reflexivity.
  - destruct (inside p v) eqn:Hv.
    + split; [lia |]. rewrite Nat.sub_diag. reflexivity.
    + specialize (IH (S j)). destruct (find_index p vs (S j)) as [k |].
      * destruct IH as [Hk E]. split; [lia |].
        replace (k - j) with (S (k - S j)) by lia. exact E.
      * exact IH.
Qed.

Lemma get_car_first_inside (p : plate_box) (vs : list vehicle) :
  get_car p vs = hd NOT_FOUND (filter (inside p) vs).
Proof.
  unfold get_car. pose proof (find_index_first p vs 0) as H.
  destruct (find_index p vs 0) as [k |].
  - destruct H as [_ H]. rewrite Nat.sub_0_r in H. exact H.
  - rewrite H. reflexivity.
Qed.

(** X10: vehicles appended to the list are looked at only when no vehicle
    of the list contains the plate: [get_car] on [vs ++ ws] is [get_car] on
    [vs] when some box of [vs] passes the test of line 266, and [get_car] on
    [ws] otherwise. *)
Theorem get_car_app (p : plate_box) (vs ws : list vehicle) :
  get_car p (vs ++ ws)
  = if existsb (inside p) vs then get_car p vs else get_car p ws.
Proof.
  rewrite !get_car_first_inside, filter_app.
  induction vs as [| v vs IH]; cbn [existsb filter app]; [reflexivity |].
  destruct (inside p v); cbn [orb app hd]; [reflexivity | exact IH].
Qed.

(** ** write_csv *)

Section WriteCsvProperties.

Variable scalar : Type.
Variable fmt : scalar -> str.

Lemma write_cars_flat (f : scalar) (cars : list (scalar * entry scalar)) (out : output scalar) :
  write_cars scalar fmt f cars out
  = write_entries scalar fmt (map (fun ce => (f, fst ce, snd ce)) cars) out.
Proof.
  revert out. induction cars as [| [c e] rest IH]; intros out.
  - reflexivity.
  - cbn [write_cars write_entries map fst snd].
    destruct (has_text e); [| apply IH].
    destruct (row_text scalar fmt f c e); [apply IH | reflexivity].
Qed.

Lemma write_entries_app (a b : list (scalar * scalar * entry scalar)) (out : output scalar) :
  write_entries scalar fmt (a ++ b) out
  = match write_entries scalar fmt a out with
    | (out', None) => write_entries scalar fmt b out'
    | (out', Some err) => (out', Some err)
    end.
Proof.
  revert out. induction a as [| [[f c] e] rest IH]; intros out.
  - reflexivity.
  - cbn [app write_entries].
    destruct (has_text e); [| apply IH].
    destruct (row_text scalar fmt f c e); [apply IH | reflexivity].
Qed.

Lemma write_frames_flat (results : results_dict scalar) (out : output scalar) :
  write_frames scalar fmt results out
  = write_entries scalar fmt (entries results) out.
Proof.
  revert out. induction results as [| [f cars] rest IH]; intros out.
  - reflexivity.
  - cbn [write_frames entries flat_map fst snd].
    rewrite write_entries_app, <- write_cars_flat.
    destruct (write_cars scalar fmt f cars out) as [out' [err |]];
      [reflexivity | apply IH].
Qed.

Lemma item_done (xs : list scalar) (i : nat) :
  i < length xs -> exists x, item xs i = Done x.
Proof.
  intros H. unfold item. destruct (nth_error xs i) eqn:E; [eauto |].
  apply nth_error_None in E. lia.
Qed.

Lemma item_fails (xs : list scalar) (i : nat) :
  length xs <= i -> item xs i = Fails IndexOutOfRange.
Proof.
  intros H. unfold item. apply nth_error_None in H. rewrite H. reflexivity.
Qed.

Lemma bbox_cell_done (b : list scalar) :
  4 <= length b -> exists cell, bbox_cell scalar fmt (Some b) = Done cell.
Proof.
  intros H. unfold bbox_cell. cbn [field and_then].
  destruct (item_done b 0) as [x0 ->]; [lia |].
  destruct (item_done b 1) as [x1 ->]; [lia |].
  destruct (item_done b 2) as [x2 ->]; [lia |].
  destruct (item_done b 3) as [x3 ->]; [lia |].
  cbn [field and_then]. eauto.
Qed.

Lemma bbox_cell_short (b : list scalar) :
  length b < 4 -> bbox_cell scalar fmt (Some b) = Fails IndexOutOfRange.
Proof.
  intros H. unfold bbox_cell. cbn [field and_then].
  destruct b as [| x0 [| x1 [| x2 [| x3 b]]]]; cbn [length] in H;
    try reflexivity; lia.
Qed.

Lemma formattable_row (f c : scalar) (e : entry scalar) :
  formattable e = true -> exists line, row_text scalar fmt f c e = Done line.
Proof.
  unfold formattable. intros H.
  destruct (car e) as [ci |] eqn:Ecar; [| discriminate].
  destruct (license_plate e) as [lp |] eqn:Elp; [| discriminate].
  destruct (car_bbox ci) as [cb |] eqn:Ecb; [| discriminate].
  destruct (lp_bbox lp) as [pb |] eqn:Epb; [| discriminate].
  destruct (lp_bbox_score lp) as [bs |] eqn:Ebs; [| discriminate].
  destruct (lp_text lp) as [t |] eqn:Et; [| discriminate].
  destruct (lp_text_score lp) as [ts |] eqn:Ets; [| discriminate].
  apply andb_true_iff in H. destruct H as [Hc Hp].
  apply Nat.leb_le in Hc, Hp.
  destruct (bbox_cell_done cb Hc) as [cc Ec].
  destruct (bbox_cell_done pb Hp) as [pc Ep].
  unfold row_text. rewrite Ecar. cbn [field and_then].
  rewrite Ecb, Ec. cbn [field and_then]. rewrite Elp. cbn [field and_then].
  rewrite Epb, Ep. cbn [field and_then]. rewrite Ebs. cbn [field and_then].
  rewrite Et. cbn [field and_then]. rewrite Ets. cbn [field and_then]. eauto.
Qed.

Lemma row_formattable (f c : scalar) (e : entry scalar) (line : str) :
  row_text scalar fmt f c e = Done line -> formattable e = true.
Proof.
  unfold row_text, formattable.
  destruct (car e) as [ci |]; [| discriminate]. cbn [field and_then].
  destruct (car_bbox ci) as [cb |]; [| discriminate].
  destruct (Nat.lt_ge_cases (length cb) 4) as [Hc | Hc].
  { rewrite (bbox_cell_short cb Hc). discriminate. }
  destruct (bbox_cell_done cb Hc) as [cc ->]. cbn [field and_then].
  destruct (license_plate e) as [lp |]; [| discriminate]. cbn [field and_then].
  destruct (lp_bbox lp) as [pb |]; [| discriminate].
  destruct (Nat.lt_ge_cases (length pb) 4) as [Hp | Hp].
  { rewrite (bbox_cell_short pb Hp). discriminate. }
  destruct (bbox_cell_done pb Hp) as [pc ->]. cbn [field and_then].
  destruct (lp_bbox_score lp); [| discriminate]. cbn [field and_then].
  destruct (lp_text lp); [| discriminate]. cbn [field and_then].
  destruct (lp_text_score lp); [| discriminate].
  intros _. apply andb_true_iff. split; apply Nat.leb_le; assumption.
Qed.

Lemma write_entries_all (es : list (scalar * scalar * entry scalar)) :
  Forall (fun fce => has_text (snd fce) = true ->
                     formattable (snd fce) = true) es ->
  forall out,
    write_entries scalar fmt es out
    = ({| file := file out ++ rows_of scalar fmt es;
          stdout := stdout out ++ map snd es |}, None).
Proof.
  induction 1 as [| [[f c] e] rest Hx Hrest IH]; intros out.
  - cbn [write_entries rows_of flat_map map]. rewrite !app_nil_r.
    destruct out; reflexivity.
  - cbn [write_entries rows_of flat_map map snd] in *.
    destruct (has_text e) eqn:Ht.
    + destruct (formattable_row f c e (Hx eq_refl)) as [line ->].
      rewrite IH. cbn [file stdout]. rewrite <- !app_assoc. reflexivity.
    + rewrite IH. cbn [file stdout]. rewrite <- !app_assoc. reflexivity.
Qed.

(** X11: when every entry that has a car, a license plate and a text can
    be formatted (two boxes of four coordinates at least, the two scores),
    [write_csv] raises nothing, writes the header and then one row for each
    such entry, in the order of the two loops, and prints every entry.
    Entries without a car, a license plate or a text give no row and no
    error. *)
Theorem write_csv_rows (results : results_dict scalar) :
  Forall (fun fce => has_text (snd fce) = true ->
                     formattable (snd fce) = true) (entries results) ->
  write_csv scalar fmt results
  = ({| file := csv_header :: rows_of scalar fmt (entries results);
        stdout := map snd (entries results) |}, None)
  /\ length (rows_of scalar fmt (entries results))
     = length (filter (fun fce => has_text (snd fce)) (entries results)).
Proof.
  intros H. split.
  - unfold write_csv. rewrite write_frames_flat, (write_entries_all _ H).
    reflexivity.
  - induction H as [| [[f c] e] rest Hx Hrest IH];
      cbn [rows_of flat_map filter snd] in *; [reflexivity |].
    destruct (has_text e); [| exact IH].
    destruct (formattable_row f c e (Hx eq_refl)) as [line ->].
    cbn [app length]. f_equal. exact IH.
Qed.

(** X12: [write_csv] stops at the first entry that has a car, a license
    plate and a text but cannot be formatted: the exception is the one of
    its row (a missing key or a box of fewer than four coordinates), the
    file holds the header and the rows of the entries before it, and that
    entry is the last one printed. *)
Theorem write_csv_stops_at_first_error
        (results : results_dict scalar)
        (pre post : list (scalar * scalar * entry scalar))
        (f c : scalar) (e : entry scalar) (err : lookup_error) :
  entries results = pre ++ (f, c, e) :: post ->
  Forall (fun fce => has_text (snd fce) = true ->
                     formattable (snd fce) = true) pre ->
  has_text e = true ->
  row_text scalar fmt f c e = Fails err ->
  write_csv scalar fmt results
  = ({| file := csv_header :: rows_of scalar fmt pre;
        stdout := map snd pre ++ [e] |}, Some err).
Proof.
  intros E Hpre Ht Hr. unfold write_csv.
  rewrite write_frames_flat, E, write_entries_app, (write_entries_all _ Hpre).
  cbn [write_entries file stdout]. rewrite Ht, Hr. reflexivity.
Qed.

(** X13: a row exists exactly for the formattable entries: [row_text]
    returns when the two boxes have four coordinates at least and the keys
    ["bbox_score"], ["text"] and ["text_score"] are there, and raises
    otherwise. *)
Theorem row_text_done_iff (f c : scalar) (e : entry scalar) :
  (exists line, row_text scalar fmt f c e = Done line)
  <-> formattable e = true.
Proof.
  split.
  - intros [line H]. eapply row_formattable, H.
  - apply formattable_row.
Qed.

Lemma count_comma_absent (s : str) :
  contains_char comma s = false -> count_occ ascii_dec s comma = 0.
Proof.
  unfold contains_char. induction s as [| x s IH]; cbn [existsb count_occ].
  - reflexivity.
  - intros H. apply orb_false_iff in H. destruct H as [Hx Hs].
    destruct (ascii_dec x comma) as [-> | _].
    + rewrite Ascii.eqb_refl in Hx. discriminate Hx.
    + apply IH, Hs.
Qed.

Lemma bbox_cell_no_comma (b : option (list scalar)) (cell : str) :
  (forall x, contains_char comma (fmt x) = false) ->
  bbox_cell scalar fmt b = Done cell ->
  count_occ ascii_dec cell comma = 0.
Proof.
  intros Hf. unfold bbox_cell. destruct b as [b |]; [| discriminate].
  cbn [field and_then].
  destruct (item b 0) as [x0 |]; [| discriminate].
  destruct (item b 1) as [x1 |]; [| discriminate].
  destruct (item b 2) as [x2 |]; [| discriminate].
  destruct (item b 3) as [x3 |]; [| discriminate].
  cbn [field and_then]. intros [= <-].
  repeat (rewrite count_occ_app || rewrite count_occ_cons_neq by discriminate).
  rewrite !(count_comma_absent _ (Hf _)). reflexivity.
Qed.

(** X14: when what [fmt] prints holds no comma, every row has exactly six
    commas, that is seven columns, and ends with a newline. *)
Theorem row_text_seven_columns (f c : scalar) (e : entry scalar) (line : str) :
  (forall x, contains_char comma (fmt x) = false) ->
  row_text scalar fmt f c e = Done line ->
  count_occ ascii_dec line comma = 6
  /\ exists body, line = body ++ [newline].
Proof.
  intros Hf. unfold row_text.
  destruct (car e) as [ci |]; [| discriminate]. cbn [field and_then].
  destruct (bbox_cell scalar fmt (car_bbox ci)) as [cc |] eqn:Ec;
    [| discriminate]. cbn [field and_then].
  destruct (license_plate e) as [lp |]; [| discriminate]. cbn [field and_then].
  destruct (bbox_cell scalar fmt (lp_bbox lp)) as [pc |] eqn:Ep;
    [| discriminate]. cbn [field and_then].
  destruct (lp_bbox_score lp) as [bs |]; [| discriminate]. cbn [field and_then].
  destruct (lp_text lp) as [t |]; [| discriminate]. cbn [field and_then].
  destruct (lp_text_score lp) as [ts |]; [| discriminate]. cbn [field and_then].
  intros [= <-]. split.
  - repeat (rewrite count_occ_app || rewrite count_occ_cons_eq by reflexivity).
    rewrite !(count_comma_absent _ (Hf _)).
    rewrite (bbox_cell_no_comma _ _ Hf Ec), (bbox_cell_no_comma _ _ Hf Ep).
    reflexivity.
  - eexists.
    repeat (rewrite app_assoc || rewrite app_comm_cons). reflexivity.
Qed.

End WriteCsvProperties.

Lemma write_csv_rows_witness :
  write_csv nat tally [(1, [(1, full_entry); (2, no_text_entry)]);
                       (2, [(5, full_entry)])]
  = ({| file := csv_header
                :: rows_of nat tally
                     (entries [(1, [(1, full_entry); (2, no_text_entry)]);
                               (2, [(5, full_entry)])]);
        stdout := map snd (entries [(1, [(1, full_entry); (2, no_text_entry)]);
                                    (2, [(5, full_entry)])]) |}, None)
  /\ length (rows_of nat tally
               (entries [(1, [(1, full_entry); (2, no_text_entry)]);
                         (2, [(5, full_entry)])]))
     = length (filter (fun fce => has_text (snd fce))
                 (entries [(1, [(1, full_entry); (2, no_text_entry)]);
                           (2, [(5, full_entry)])])).
Proof.
  apply write_csv_rows.
  repeat constructor; intros H; try discriminate H; reflexivity.
Defined.

Lemma write_csv_stops_at_first_error_witness :
  write_csv nat tally [(1, [(1, full_entry); (2, short_box_entry)]);
                       (2, [(5, full_entry)])]
  = ({| file := csv_header :: rows_of nat tally [(1, 1, full_entry)];
        stdout := map snd [(1, 1, full_entry)] ++ [short_box_entry] |},
     Some IndexOutOfRange).
Proof.
  apply (write_csv_stops_at_first_error nat tally _
           [(1, 1, full_entry)] [(2, 5, full_entry)] 1 2 short_box_entry).
  - reflexivity.
  - repeat constructor.
  - reflexivity.
  - reflexivity.
Defined.

Lemma tally_no_comma (n : nat) : contains_char comma (tally n) = false.
Proof. induction n as [| n IH]; [reflexivity | exact IH]. Qed.

Lemma row_text_seven_columns_witness :
  count_occ ascii_dec
    (lit "|,||,[| || ||| ||||],[| | || ||],|||||||||,|||||||,||||||||"
     ++ [newline]) comma = 6
  /\ exists body,
       lit "|,||,[| || ||| ||||],[| | || ||],|||||||||,|||||||,||||||||"
       ++ [newline] = body ++ [newline].
Proof.
  apply (row_text_seven_columns nat tally 1 2 full_entry).
  - exact tally_no_comma.
  - reflexivity.
Defined.

(** ** What the fallback returns *)

Lemma format_number_to_digit (c : ascii) :
  in_keys c dict_int_to_char = false -> format_number c = Ok (to_digit c).
Proof.
  destruct c as [[] [] [] [] [] [] [] []]; vm_compute;
    intros H; try discriminate H; reflexivity.
Qed.

Lemma for_chars_format_number_map (s : str) :
  forallb (fun x => negb (in_keys x dict_int_to_char)) s = true ->
  forall acc, for_chars format_number s acc = Ok (acc ++ map to_digit s).
Proof.
  induction s as [| c s IH]; cbn [forallb for_chars map]; intros H acc.
  - rewrite app_nil_r. reflexivity.
  - apply andb_true_iff in H. destruct H as [Hc Hs].
    apply negb_true_iff in Hc. rewrite (format_number_to_digit _ Hc).
    cbn [bind]. rewrite (IH Hs), <- app_assoc. reflexivity.
Qed.

(** X15: on an ASCII text that misses the primary pattern and that the
    fallback
    parse splits into a letter part and a number part holding none of the
    digits 0, 1, 3, 4, 5, 6, [format_license] returns the letter part as it
    is, a hyphen, and the number part with each of O, I, J, A, G, S replaced
    by its digit and every other character kept. *)
Theorem format_license_fallback_result (text letters numbers : str) :
  is_ascii text = true ->
  extract_plate_format text = None ->
  fallback_parts text = Some (letters, numbers) ->
  forallb (fun x => negb (in_keys x dict_int_to_char)) numbers = true ->
  format_license text = Ok (letters ++ hyphen :: map to_digit numbers).
Proof.
  intros _ He Hf Hn. rewrite (format_license_fallback _ He), Hf.
  unfold format_parts. rewrite for_chars_format_letter. cbn [bind app].
  rewrite (for_chars_format_number_map _ Hn). reflexivity.
Qed.

Lemma format_license_fallback_result_witness :
  format_license (lit "nw kf-7O8x")
  = Ok (lit "KF" ++ hyphen :: map to_digit (lit "7O8X")).
Proof.
  apply format_license_fallback_result; reflexivity.
Defined.

(** ** The prefix before the two letters *)

Lemma split_no_sep (sep : ascii) (x : str) :
  contains_char sep x = false -> split sep x = [x].
Proof.
  unfold contains_char. induction x as [| c x IH]; cbn [existsb split].
  - reflexivity.
  - intros H. apply orb_false_iff in H. destruct H as [Hc Hx].
    rewrite Ascii.eqb_sym, Hc, (IH Hx). reflexivity.
Qed.

Lemma split_one_sep (sep : ascii) (x y : str) :
  contains_char sep x = false -> contains_char sep y = false ->
  split sep (x ++ sep :: y) = [x; y].
Proof.
  intros Hx Hy. unfold contains_char in Hx.
  induction x as [| c x IH]; cbn [existsb app split] in *.
  - rewrite Ascii.eqb_refl, (split_no_sep _ _ Hy). reflexivity.
  - apply orb_false_iff in Hx. destruct Hx as [Hc Hx].
    rewrite Ascii.eqb_sym, Hc, (IH Hx). reflexivity.
Qed.

Lemma upper_char_space (c : ascii) :
  Ascii.eqb (upper_char c) space = Ascii.eqb c space.
Proof. destruct c as [[] [] [] [] [] [] [] []]; reflexivity. Qed.

Lemma fallback_parts_prefix (p n : str) (a b : ascii) :
  contains_char hyphen p = false ->
  contains_char hyphen n = false ->
  Ascii.eqb a space || Ascii.eqb a hyphen
  || Ascii.eqb b space || Ascii.eqb b hyphen = false ->
  fallback_parts (p ++ a :: b :: hyphen :: n)
  = Some ([upper_char a; upper_char b], remove_char space (upper n)).
Proof.
  intros Hp Hn Hab. rewrite !orb_false_iff in Hab.
  destruct Hab as [[[As Ah] Bs] Bh].
  apply stripped_no_hyphen in Hp, Hn.
  set (p' := remove_char space (upper p)) in *.
  set (n' := remove_char space (upper n)) in *.
  assert (E : remove_char space (upper (p ++ a :: b :: hyphen :: n))
              = (p' ++ [upper_char a; upper_char b]) ++ hyphen :: n').
  { unfold p', n', remove_char, upper.
    rewrite map_app, filter_app. cbn [map filter].
    rewrite !upper_char_space, As, Bs. cbn [negb].
    rewrite <- app_assoc. reflexivity. }
  assert (Hl : contains_char hyphen (p' ++ [upper_char a; upper_char b])
               = false).
  { unfold contains_char in *. rewrite existsb_app, Hp. cbn [existsb orb].
    rewrite !upper_char_hyphen, (Ascii.eqb_sym hyphen a),
      (Ascii.eqb_sym hyphen b), Ah, Bh. reflexivity. }
  unfold fallback_parts. rewrite E.
  assert (Hc : contains_char hyphen
                 ((p' ++ [upper_char a; upper_char b]) ++ hyphen :: n') = true).
  { apply existsb_exists. exists hyphen. split; [apply in_elt | reflexivity]. }
  rewrite Hc, (split_one_sep _ _ _ Hl Hn). f_equal. f_equal.
  destruct (2 <? length (p' ++ [upper_char a; upper_char b])) eqn:L.
  - unfold last2. rewrite length_app. cbn [length].
    replace (length p' + 2 - 2) with (length p' + 0) by lia.
    rewrite skipn_app, Nat.add_0_r, skipn_all, Nat.sub_diag. reflexivity.
  - apply Nat.ltb_ge in L. rewrite length_app in L. cbn [length] in L.
    destruct p'; [reflexivity | cbn [length] in L; lia].
Qed.

Lemma re_search_none_intro {A : Type} (m : str -> option A) (s : str) :
  (forall k, m (skipn k s) = None) -> re_search m s = None.
Proof.
  induction s as [| c s IH]; intros H; cbn [re_search].
  - pose proof (H 0) as H0. cbn [skipn] in H0. rewrite H0. reflexivity.
  - pose proof (H 0) as H0. cbn [skipn] in H0. rewrite H0.
    apply IH. intros k. exact (H (S k)).
Qed.

Lemma extract_plate_format_suffix (p t : str) :
  extract_plate_format (p ++ t) = None -> extract_plate_format t = None.
Proof.
  unfold extract_plate_format, dense, remove_char, upper.
  rewrite map_app, !filter_app.
  set (x := filter _ (filter _ (map upper_char p))).
  set (y := filter _ (filter _ (map upper_char t))).
  destruct (re_search match_strict_at (x ++ y)) as [[? ?] |] eqn:E;
    [discriminate |]. intros _.
  rewrite re_search_none_intro; [reflexivity |].
  intros k. pose proof (re_search_none _ _ E (length x + k)) as H.
  rewrite skipn_app, skipn_all2 in H by lia.
  replace (length x + k - length x) with k in H by lia. exact H.
Qed.

(** X16: in an ASCII text, whatever stands before the two characters that
    precede the hyphen is discarded, as long as it holds no hyphen: with or without
    such a prefix the text complies or does not, and, when the primary
    pattern is missed, [format_license] gives the same result. *)
Theorem prefix_before_letters_discarded (p n : str) (a b : ascii) :
  is_ascii (p ++ a :: b :: hyphen :: n) = true ->
  contains_char hyphen p = false ->
  contains_char hyphen n = false ->
  Ascii.eqb a space || Ascii.eqb a hyphen
  || Ascii.eqb b space || Ascii.eqb b hyphen = false ->
  license_complies_format (p ++ a :: b :: hyphen :: n)
  = license_complies_format (a :: b :: hyphen :: n)
  /\ (extract_plate_format (p ++ a :: b :: hyphen :: n) = None ->
      format_license (p ++ a :: b :: hyphen :: n)
      = format_license (a :: b :: hyphen :: n)).
Proof.
  intros _ Hp Hn Hab.
  pose proof (fallback_parts_prefix p n a b Hp Hn Hab) as E1.
  pose proof (fallback_parts_prefix [] n a b eq_refl Hn Hab) as E2.
  cbn [app] in E2. split.
  - rewrite !license_complies_format_parts, E1, E2. reflexivity.
  - intros He. pose proof (extract_plate_format_suffix _ _ He) as He'.
    rewrite (format_license_fallback _ He), (format_license_fallback _ He'),
      E1, E2.
    reflexivity.
Qed.

Lemma prefix_before_letters_discarded_witness :
  license_complies_format (lit "nw 9" ++ "k"%char :: "f"%char :: hyphen :: lit "7O 89")
  = license_complies_format ("k"%char :: "f"%char :: hyphen :: lit "7O 89")
  /\ (extract_plate_format (lit "nw 9" ++ "k"%char :: "f"%char :: hyphen :: lit "7O 89")
      = None ->
      format_license (lit "nw 9" ++ "k"%char :: "f"%char :: hyphen :: lit "7O 89")
      = format_license ("k"%char :: "f"%char :: hyphen :: lit "7O 89")).
Proof.
  apply prefix_before_letters_discarded; reflexivity.
Defined.

Lemma read_plate_confidence_zero_witness :
  read_plate [hyp "kf-7O89" 0; hyp "zz" 0.9; hyp "ab-OOO7" 0] = Ok (None, None).
Proof.
  apply read_plate_confidence_zero.
  - reflexivity.
  - repeat constructor.
  - repeat constructor; intros H; try discriminate H; eexists; reflexivity.
  - repeat constructor; intros H; try discriminate H; reflexivity.
Defined.
